(** * DroQ-SAC training step ([sbx/droq_sac/droq.py])

    A shallow embedding of the [DroQ_SAC] class: its constructor, the
    actor update [update_actor] and the training-step orchestrator
    [_train], together with the properties of the update schedule, of the
    micro-batch slicing, of the random-key threading and of the reported
    diagnostics.

    Conventions.
    - Python integers are [Z]; [%] and [//] are [Z.modulo] and [Z.div]
      (both round towards minus infinity, like Python's).
    - An integer argument of a [jax.jit] function that is not among its
      [static_argnames] is a traced [int32]: a Python [int] outside the
      [int32] range is refused with [OverflowError] when the call converts
      its arguments, and arithmetic on the traced value wraps around.
    - Array values ([np.ndarray], [jnp.ndarray]) are lists of rows, the
      list length being [shape[0]].
    - Floating-point scalars are idealised as exact rationals ([Qc]).
    - A Python exception aborts the computation; external calls made before
      it are kept in the call log.
    - Apart from the conversion of the integer argument, the [jax.jit]
      decorators are transparent: the Python body is the meaning of the
      function, and [assert] statements are enabled. *)

From Stdlib Require Import QArith Qcanon.
From stdpp Require Import base numbers list strings gmap finite.

Open Scope Z_scope.

(** ** Exceptions and the logging error monad *)

Inductive exn : Type :=
  | AssertionError
  | UnboundLocalError
  | ZeroDivisionError
  | OverflowError
  | Raised (name : string).

Global Instance exn_eq_dec : EqDecision exn.
Proof. solve_decision. Defined.

(** A computation produces the log of the external calls it made, in
    program order, and either an exception or a value. *)
Definition py (E A : Type) : Type := list E * (exn + A).

Definition raise {E A} (e : exn) : py E A := ([], inl e).
Definition call {E} (ev : E) : py E unit := ([ev], inr tt).
Definition log {E A} (m : py E A) : list E := fst m.
Definition outcome {E A} (m : py E A) : exn + A := snd m.

Global Instance py_ret {E} : MRet (py E) := λ A (a : A), ([], inr a).
Global Instance py_bind {E} : MBind (py E) := λ A B (f : A → py E B) (m : py E A),
  match m with
  | (l, inl e) => (l, inl e)
  | (l, inr a) => let '(l', r) := f a in (l ++ l', r)
  end.

(** [for i in xs: s = body(i, s)] *)
Fixpoint for_ {E S} (xs : list Z) (body : Z → S → py E S) (s : S) : py E S :=
  match xs with
  | [] => mret s
  | i :: xs' => s' ← body i s; for_ xs' body s'
  end.

(** [range(n)]: empty when [n <= 0]. *)
Definition range (n : Z) : list Z := Z.of_nat <$> seq 0 (Z.to_nat n).

(** ** Traced 32-bit integers *)

Definition int32_min : Z := - 2 ^ 31.
Definition int32_max : Z := 2 ^ 31 - 1.

Definition in_int32 (z : Z) : bool := (int32_min <=? z) && (z <=? int32_max).

(** The two's-complement value of [z] on 32 bits. *)
Definition wrap32 (z : Z) : Z := (z - int32_min) `mod` 2 ^ 32 + int32_min.

(** A Python [int] handed to a jitted function as a traced argument. *)
Definition jit_int32 {E} (z : Z) : py E Z :=
  if in_int32 z then mret z else raise OverflowError.

(** The integers a traced [int32] can hold. *)
Record int32 : Type := { int32_val :> Z; int32_ok : in_int32 int32_val = true }.

(** ** Arrays and Python slicing *)

Definition shape0 {A} (x : list A) : Z := Z.of_nat (length x).

(** Normalisation of one bound of [x[lo:hi]] against the length. *)
Definition clip_index (len i : Z) : Z :=
  if i <? 0 then Z.max 0 (len + i) else Z.min i len.

(** [x[lo:hi]] *)
Definition getslice {A} (x : list A) (lo hi : Z) : list A :=
  let a := clip_index (shape0 x) lo in
  let b := clip_index (shape0 x) hi in
  take (Z.to_nat (b - a)) (drop (Z.to_nat a) x).

(** The helper nested in [_train]:
<<
    def slice(x, step=i):
        assert x.shape[0] % gradient_steps == 0
        batch_size = x.shape[0] // gradient_steps
        return x[batch_size * step : batch_size * (step + 1)]
>>
    [gradient_steps] is the free variable of the closure and [step] the
    default argument bound when the [def] is executed. *)
Definition slice {E A} (gradient_steps step : Z) (x : list A) : py E (list A) :=
  if decide (gradient_steps = 0) then raise ZeroDivisionError
  else if decide (shape0 x `mod` gradient_steps = 0) then
    let batch_size := shape0 x `div` gradient_steps in
    mret (getslice x (batch_size * step) (batch_size * (step + 1)))
  else raise AssertionError.

(** A local variable holding the closure: [None] while the name is unbound,
    [Some step] once a [def] has run. *)
Definition call_slice {E A} (gradient_steps : Z) (slice_ : option Z) (x : list A)
  : py E (list A) :=
  match slice_ with
  | None => raise UnboundLocalError
  | Some step => slice gradient_steps step x
  end.

(** Rows [lo, hi) of an array, by position. *)
Definition rows {A} (x : list A) (lo hi : nat) : list A := take (hi - lo) (drop lo x).

(** ** Array arithmetic used by the actor loss *)

Definition Float : Type := Qc.

Definition sum (x : list Float) : Float := foldr Qcplus 0%Qc x.

(** [x.mean()]: the sum of all entries over their number. On an array of
    zero entries the code yields nan, which [Qc] does not hold; the value of
    [mean []] is used by no statement. *)
Definition mean (x : list Float) : Float := (sum x / Qc_of_Z (shape0 x))%Qc.

(** [jnp.mean(m, axis=0)] for an array of shape (members, batch, 1), held as
    one list of [batch] values per member: entry [j] of the result is the
    mean over the members of their entry [j]. *)
Definition mean_axis0 (m : list (list Float)) : list Float :=
  let batch := match m with [] => 0%nat | member :: _ => length member end in
  (λ j, mean ((λ member, nth j member 0%Qc) <$> m)) <$> seq 0 batch.

(** [min] across the members, the reduction of plain SAC, for comparison. *)
Definition min_axis0 (m : list (list Float)) : list Float :=
  let batch := match m with [] => 0%nat | member :: _ => length member end in
  (λ j, match (λ member, nth j member 0%Qc) <$> m with
        | [] => 0%Qc
        | q :: qs => foldr (λ a b, if Qclt_le_dec a b then a else b) q qs
        end) <$> seq 0 batch.

(** [a * x] with [a] a scalar, and [x - y] entry by entry, for [x] and [y] of
    the same length (on other shapes the code broadcasts or refuses;
    statements about a value of [sub] assume equal lengths). *)
Definition scale (a : Float) (x : list Float) : list Float := Qcmult a <$> x.
Definition sub (x y : list Float) : list Float := zip_with Qcminus x y.

(** ** The collaborators of the module

    Everything [droq.py] imports and calls but does not define: rows of the
    sampled arrays, random keys, the flax train states, the network modules
    and the three update functions inherited from [sbx.sac.sac]. *)

Class Collaborators : Type := {
  Row : Type;
  Key : Type;
  Actor : Type;
  Qf : Type;
  EntCoef : Type;
  ActorState : Type;
  QfState : Type;
  EntCoefState : Type;
  ActorParams : Type;
  QfParams : Type;
  EntCoefParams : Type;
  Grads : Type;
  Dist : Type;
  Actions : Type;
  (** [jax.random.split(key, num)]: entry [i] of the [num] sub-keys. *)
  jax_random_split : Key → nat → nat → Key;
  (** [state.params] and [state.apply_gradients(grads=...)] of flax. *)
  actor_params : ActorState → ActorParams;
  qf_params : QfState → QfParams;
  ent_coef_params : EntCoefState → EntCoefParams;
  apply_gradients : ActorState → Grads → ActorState;
  (** [actor.apply], [dist.sample], [dist.log_prob], [qf.apply] with its
      dropout key, [ent_coef.apply]. *)
  actor_apply : Actor → ActorParams → list Row → Dist;
  dist_sample : Dist → Key → Actions;
  dist_log_prob : Dist → Actions → list Float;
  qf_apply : Qf → QfParams → list Row → Actions → Key → list (list Float);
  ent_coef_apply : EntCoef → EntCoefParams → Float;
  (** The gradient half of [jax.value_and_grad(f, has_aux=True)]. *)
  jax_grad : (ActorParams → Float * Float) → ActorParams → Grads;
  (** [SAC.update_critic], [SAC.soft_update], [SAC.update_temperature]. *)
  SAC_update_critic :
    Actor → Qf → EntCoef → Float → ActorState → QfState → EntCoefState →
    list Row → list Row → list Row → list Row → list Row → Key →
    QfState * (Float * Float) * Key;
  SAC_soft_update : Float → QfState → QfState;
  SAC_update_temperature :
    EntCoef → Float → EntCoefState → Float → EntCoefState * Float
}.

Section DroQ.

Context `{Collaborators}.

Definition ndarray : Type := list Row.

(** ** The replay-buffer sample *)

Record ReplayBufferSamplesNp : Type := {
  observations : ndarray;
  actions : ndarray;
  next_observations : ndarray;
  dones : ndarray;
  rewards : ndarray
}.

(** ** [DroQ_SAC.update_actor] *)

(** The nested [actor_loss(params)]; its free variables are made
    parameters. [log_prob.reshape(-1, 1)] and the critic output share the
    layout of one value per batch row. *)
Definition actor_loss (actor : Actor) (qf : Qf) (ent_coef : EntCoef)
    (qf_state : QfState) (ent_coef_state : EntCoefState) (observations : ndarray)
    (dropout_key noise_key : Key) (params : ActorParams) : Float * Float :=
  let dist := actor_apply actor params observations in
  let actor_actions := dist_sample dist noise_key in
  let log_prob := dist_log_prob dist actor_actions in
  let qf_pi := qf_apply qf (qf_params qf_state) observations actor_actions dropout_key in
  let min_qf_pi := mean_axis0 qf_pi in
  let ent_coef_value := ent_coef_apply ent_coef (ent_coef_params ent_coef_state) in
  let actor_loss := mean (sub (scale ent_coef_value log_prob) min_qf_pi) in
  (actor_loss, (- mean log_prob)%Qc).

Definition update_actor (actor : Actor) (qf : Qf) (ent_coef : EntCoef)
    (actor_state : ActorState) (qf_state : QfState) (ent_coef_state : EntCoefState)
    (observations : ndarray) (key : Key)
  : ActorState * QfState * Float * Key * Float :=
  let keys := jax_random_split key 3 in
  let key := keys 0%nat in
  let dropout_key := keys 1%nat in
  let noise_key := keys 2%nat in
  let loss_fn :=
    actor_loss actor qf ent_coef qf_state ent_coef_state observations dropout_key noise_key in
  let '(actor_loss_value, entropy) := loss_fn (actor_params actor_state) in
  let grads := jax_grad loss_fn (actor_params actor_state) in
  let actor_state := apply_gradients actor_state grads in
  (actor_state, qf_state, actor_loss_value, key, entropy).

(** ** [DroQ_SAC._train] *)

(** The arguments of one [SAC.update_critic] call. *)
Record critic_call : Type := {
  cc_gamma : Float;
  cc_actor_state : ActorState;
  cc_qf_state : QfState;
  cc_ent_coef_state : EntCoefState;
  cc_observations : ndarray;
  cc_actions : ndarray;
  cc_next_observations : ndarray;
  cc_rewards : ndarray;
  cc_dones : ndarray;
  cc_key : Key
}.

(** The arguments of the [DroQ_SAC.update_actor] call. *)
Record actor_call : Type := {
  ac_actor_state : ActorState;
  ac_qf_state : QfState;
  ac_ent_coef_state : EntCoefState;
  ac_observations : ndarray;
  ac_key : Key
}.

(** The update calls an invocation makes. *)
Inductive update : Type :=
  | Update_critic (c : critic_call)
  | Soft_update (tau : Float) (qf_state : QfState)
  | Update_actor (a : actor_call)
  | Update_temperature (target_entropy : Float) (ent_coef_state : EntCoefState)
      (entropy : Float).

Definition run_update_critic (actor : Actor) (qf : Qf) (ent_coef : EntCoef)
    (c : critic_call) : QfState * (Float * Float) * Key :=
  SAC_update_critic actor qf ent_coef (cc_gamma c) (cc_actor_state c) (cc_qf_state c)
    (cc_ent_coef_state c) (cc_observations c) (cc_actions c) (cc_next_observations c)
    (cc_rewards c) (cc_dones c) (cc_key c).

Definition run_update_actor (actor : Actor) (qf : Qf) (ent_coef : EntCoef)
    (a : actor_call) : ActorState * QfState * Float * Key * Float :=
  update_actor actor qf ent_coef (ac_actor_state a) (ac_qf_state a)
    (ac_ent_coef_state a) (ac_observations a) (ac_key a).

(** The local variables the loop of [_train] assigns. [slice_],
    [qf_loss_value] and [ent_coef_value] are unbound until the first
    iteration has run. *)
Record locals : Type := {
  n_updates : Z;
  qf_state : QfState;
  key : Key;
  slice_ : option Z;
  qf_loss_value : option Float;
  ent_coef_value : option Float
}.

(** Reading a local that may be unbound. *)
Definition load {A} (v : option A) : py update A :=
  match v with
  | None => raise UnboundLocalError
  | Some a => mret a
  end.

(** The body of [for i in range(gradient_steps)]. [n_updates] is a traced
    [int32], so [n_updates += 1] wraps around. *)
Definition cycle (actor : Actor) (qf : Qf) (ent_coef : EntCoef) (gamma tau : Float)
    (gradient_steps : Z) (data : ReplayBufferSamplesNp) (actor_state : ActorState)
    (ent_coef_state : EntCoefState) (i : Z) (s : locals) : py update locals :=
  let n_updates' := wrap32 (n_updates s + 1) in
  let slice' := Some i in
  obs ← call_slice gradient_steps slice' (observations data);
  act ← call_slice gradient_steps slice' (actions data);
  next_obs ← call_slice gradient_steps slice' (next_observations data);
  rew ← call_slice gradient_steps slice' (rewards data);
  dn ← call_slice gradient_steps slice' (dones data);
  let c := {| cc_gamma := gamma; cc_actor_state := actor_state;
              cc_qf_state := qf_state s; cc_ent_coef_state := ent_coef_state;
              cc_observations := obs; cc_actions := act;
              cc_next_observations := next_obs; cc_rewards := rew;
              cc_dones := dn; cc_key := key s |} in
  _ ← call (Update_critic c);
  let '(qf_state', (qf_loss_value', ent_coef_value'), key') :=
    run_update_critic actor qf ent_coef c in
  _ ← call (Soft_update tau qf_state');
  let qf_state'' := SAC_soft_update tau qf_state' in
  mret {| n_updates := n_updates'; qf_state := qf_state''; key := key';
          slice_ := slice'; qf_loss_value := Some qf_loss_value';
          ent_coef_value := Some ent_coef_value' |}.

(** [n_updates] is not among the [static_argnames] of the [jax.jit]
    decorator: the call converts it to a traced [int32] before the body
    runs, and refuses a Python [int] outside the range. *)
Definition _train (actor : Actor) (qf : Qf) (ent_coef : EntCoef)
    (gamma tau target_entropy : Float) (gradient_steps : Z)
    (data : ReplayBufferSamplesNp) (n_updates0 : Z) (qf_state0 : QfState)
    (actor_state : ActorState) (ent_coef_state : EntCoefState) (key0 : Key)
  : py update (Z * QfState * ActorState * EntCoefState * Key * (Float * Float * Float)) :=
  n_updates0 ← jit_int32 n_updates0;
  s ← for_ (range gradient_steps)
        (cycle actor qf ent_coef gamma tau gradient_steps data actor_state ent_coef_state)
        {| n_updates := n_updates0; qf_state := qf_state0; key := key0;
           slice_ := None; qf_loss_value := None; ent_coef_value := None |};
  obs ← call_slice gradient_steps (slice_ s) (observations data);
  let a := {| ac_actor_state := actor_state; ac_qf_state := qf_state s;
              ac_ent_coef_state := ent_coef_state; ac_observations := obs;
              ac_key := key s |} in
  _ ← call (Update_actor a);
  let '(actor_state', qf_state', actor_loss_value, key', entropy) :=
    run_update_actor actor qf ent_coef a in
  _ ← call (Update_temperature target_entropy ent_coef_state entropy);
  let '(ent_coef_state', _) :=
    SAC_update_temperature ent_coef target_entropy ent_coef_state entropy in
  qf_loss ← load (qf_loss_value s);
  ent_coef_v ← load (ent_coef_value s);
  mret (n_updates s, qf_state', actor_state', ent_coef_state', key',
        (actor_loss_value, qf_loss, ent_coef_v)).

End DroQ.

(** ** [DroQ_SAC.__init__] *)

(** Values stored in a [policy_kwargs] dictionary. *)
Inductive value : Type :=
  | VNone
  | VBool (b : bool)
  | VInt (z : Z)
  | VFloat (q : Float)
  | VStr (s : string).

(** The types of the arguments the constructor only passes on, and the
    attributes the parent constructor sets besides [policy_kwargs]. *)
Class Externals : Type := {
  Policy : Type;
  GymEnv : Type;
  Schedule : Type;
  ActionNoise : Type;
  Attributes : Type
}.

Section Constructor.

Context `{Externals}.

(** The arguments of [DroQ_SAC.__init__]. *)
Record droq_kwargs : Type := {
  policy : Policy;
  env : GymEnv + string;
  learning_rate : Float + Schedule;
  buffer_size : Z;
  learning_starts : Z;
  batch_size : Z;
  tau : Float;
  gamma : Float;
  train_freq : Z + Z * string;
  gradient_steps : Z;
  dropout_rate : Float;
  layer_norm : bool;
  action_noise : option ActionNoise;
  ent_coef : string + Float;
  use_sde : bool;
  sde_sample_freq : Z;
  use_sde_at_warmup : bool;
  tensorboard_log : option string;
  policy_kwargs : option (gmap string value);
  verbose : Z;
  seed : option Z;
  device : string;
  _init_setup_model : bool
}.

(** The keyword arguments of [super().__init__(...)]. *)
Record sac_kwargs : Type := {
  sac_policy : Policy;
  sac_env : GymEnv + string;
  sac_learning_rate : Float + Schedule;
  sac_buffer_size : Z;
  sac_learning_starts : Z;
  sac_batch_size : Z;
  sac_tau : Float;
  sac_gamma : Float;
  sac_train_freq : Z + Z * string;
  sac_gradient_steps : Z;
  sac_action_noise : option ActionNoise;
  sac_use_sde : bool;
  sac_sde_sample_freq : Z;
  sac_use_sde_at_warmup : bool;
  sac_ent_coef : string + Float;
  sac_policy_kwargs : option (gmap string value);
  sac_tensorboard_log : option string;
  sac_verbose : Z;
  sac_seed : option Z;
  sac__init_setup_model : bool
}.

(** The instance once the parent constructor has run. *)
Record instance : Type := {
  self_policy_kwargs : gmap string value;
  self_attributes : Attributes
}.

(** The signature defaults; [policy] and [env] are required. *)
Definition default_kwargs (policy : Policy) (env : GymEnv + string) : droq_kwargs := {|
  policy := policy;
  env := env;
  learning_rate := inl (Q2Qc (3 # 10000));
  buffer_size := 1000000;
  learning_starts := 100;
  batch_size := 256;
  tau := Q2Qc (5 # 1000);
  gamma := Q2Qc (99 # 100);
  train_freq := inl 1;
  gradient_steps := 1;
  dropout_rate := Q2Qc (1 # 100);
  layer_norm := true;
  action_noise := None;
  ent_coef := inl "auto"%string;
  use_sde := false;
  sde_sample_freq := -1;
  use_sde_at_warmup := false;
  tensorboard_log := None;
  policy_kwargs := None;
  verbose := 0;
  seed := None;
  device := "auto"%string;
  _init_setup_model := true
|}.

Definition super_kwargs (a : droq_kwargs) : sac_kwargs := {|
  sac_policy := policy a;
  sac_env := env a;
  sac_learning_rate := learning_rate a;
  sac_buffer_size := buffer_size a;
  sac_learning_starts := learning_starts a;
  sac_batch_size := batch_size a;
  sac_tau := tau a;
  sac_gamma := gamma a;
  sac_train_freq := train_freq a;
  sac_gradient_steps := gradient_steps a;
  sac_action_noise := action_noise a;
  sac_use_sde := use_sde a;
  sac_sde_sample_freq := sde_sample_freq a;
  sac_use_sde_at_warmup := use_sde_at_warmup a;
  sac_ent_coef := ent_coef a;
  sac_policy_kwargs := policy_kwargs a;
  sac_tensorboard_log := tensorboard_log a;
  sac_verbose := verbose a;
  sac_seed := seed a;
  sac__init_setup_model := _init_setup_model a
|}.

(** [self.policy_kwargs[k] = v] *)
Definition setitem_policy_kwargs (k : string) (v : value) (self : instance) : instance :=
  {| self_policy_kwargs := <[k := v]> (self_policy_kwargs self);
     self_attributes := self_attributes self |}.

(** [SAC.__init__] of [sbx.sac.sac], the parent constructor. *)
Variable SAC__init__ : sac_kwargs → exn + instance.

Definition __init__ (a : droq_kwargs) : exn + instance :=
  match SAC__init__ (super_kwargs a) with
  | inl e => inl e
  | inr self =>
      let self := setitem_policy_kwargs "dropout_rate" (VFloat (dropout_rate a)) self in
      let self := setitem_policy_kwargs "layer_norm" (VBool (layer_norm a)) self in
      inr self
  end.

End Constructor.

(** A call that differs from [a] in one keyword argument only. *)
Section Keyword_arguments.

Context `{Externals}.

Definition with_device (d : string) (a : droq_kwargs) : droq_kwargs :=
  Build_droq_kwargs (policy a) (env a) (learning_rate a) (buffer_size a)
    (learning_starts a) (batch_size a) (tau a) (gamma a) (train_freq a)
    (gradient_steps a) (dropout_rate a) (layer_norm a) (action_noise a) (ent_coef a)
    (use_sde a) (sde_sample_freq a) (use_sde_at_warmup a) (tensorboard_log a)
    (policy_kwargs a) (verbose a) (seed a) d (_init_setup_model a).

Definition with_dropout (r : Float) (ln : bool) (a : droq_kwargs) : droq_kwargs :=
  Build_droq_kwargs (policy a) (env a) (learning_rate a) (buffer_size a)
    (learning_starts a) (batch_size a) (tau a) (gamma a) (train_freq a)
    (gradient_steps a) r ln (action_noise a) (ent_coef a)
    (use_sde a) (sde_sample_freq a) (use_sde_at_warmup a) (tensorboard_log a)
    (policy_kwargs a) (verbose a) (seed a) (device a) (_init_setup_model a).

End Keyword_arguments.

(** ** Vocabulary of the specification *)

(** Micro-batch [i] of an array split into [gradient_steps] parts: rows
    [i*m, (i+1)*m) with [m] the length over [gradient_steps]. *)
Definition micro_batch_size {A} (gradient_steps : Z) (x : list A) : nat :=
  Z.to_nat (shape0 x `div` gradient_steps).

Definition micro_batch {A} (gradient_steps : Z) (i : nat) (x : list A) : list A :=
  let m := micro_batch_size gradient_steps x in
  rows x (i * m) ((i + 1) * m).

(** The actor loss and the entropy estimate as the specification words
    them, written with sums over indices and none of the array operations
    of the code: [index_sum f n] is [f 0 + ... + f (n - 1)] and [average n f]
    is that sum over [n]. The loss is the average over the batch rows [j]
    of [temperature * log_prob j - mean_Q j], with [mean_Q j] the average
    over the ensemble members of their value on row [j]; the entropy
    estimate is the average over the batch rows of [- log_prob j]. *)
Fixpoint index_sum (f : nat → Qc) (n : nat) : Qc :=
  match n with
  | O => 0%Qc
  | S k => (index_sum f k + f k)%Qc
  end.

Definition average (n : nat) (f : nat → Qc) : Qc :=
  (index_sum f n / Qc_of_Z (Z.of_nat n))%Qc.

Definition spec_mean_Q (qf_pi : list (list Qc)) (j : nat) : Qc :=
  average (length qf_pi) (λ c, nth j (nth c qf_pi []) 0%Qc).

Definition spec_actor_loss (temperature : Qc) (log_prob : list Qc)
    (qf_pi : list (list Qc)) : Qc :=
  average (length log_prob)
    (λ j, (temperature * nth j log_prob 0 - spec_mean_Q qf_pi j)%Qc).

Definition spec_entropy (log_prob : list Qc) : Qc :=
  average (length log_prob) (λ j, (- nth j log_prob 0)%Qc).

(** The kinds of update, for counting calls. *)
Inductive kind : Type :=
  | Critic_update
  | Target_soft_update
  | Actor_update
  | Temperature_update.

Section Vocabulary.

Context `{Collaborators}.

Definition kind_of (u : update) : kind :=
  match u with
  | Update_critic _ => Critic_update
  | Soft_update _ _ => Target_soft_update
  | Update_actor _ => Actor_update
  | Update_temperature _ _ _ => Temperature_update
  end.

Global Instance kind_eq_dec : EqDecision kind.
Proof. solve_decision. Defined.

(** How many calls of kind [k] a log holds. *)
Definition count_kind (k : kind) (l : list update) : nat :=
  length (filter (λ k', k' = k) (kind_of <$> l)).

(** The calls of [n] critic cycles followed by the actor and temperature
    updates, by kind. *)
Definition schedule (n : nat) : list kind :=
  mjoin (replicate n [Critic_update; Target_soft_update])
    ++ [Actor_update; Temperature_update].

Definition critic_calls (l : list update) : list critic_call :=
  omap (λ u, match u with Update_critic c => Some c | _ => None end) l.

Definition actor_calls (l : list update) : list actor_call :=
  omap (λ u, match u with Update_actor a => Some a | _ => None end) l.

Definition soft_update_rates (l : list update) : list Float :=
  omap (λ u, match u with Soft_update tau _ => Some tau | _ => None end) l.

(** Every array of the sample has [bs] rows. *)
Definition batch_of_size (data : ReplayBufferSamplesNp) (bs : nat) : Prop :=
  length (observations data) = bs ∧ length (actions data) = bs ∧
  length (next_observations data) = bs ∧ length (rewards data) = bs ∧
  length (dones data) = bs.

(** Every array of the sample passes the assertion of [slice]. *)
Definition sliceable (gradient_steps : Z) (data : ReplayBufferSamplesNp) : Prop :=
  shape0 (observations data) `mod` gradient_steps = 0 ∧
  shape0 (actions data) `mod` gradient_steps = 0 ∧
  shape0 (next_observations data) `mod` gradient_steps = 0 ∧
  shape0 (rewards data) `mod` gradient_steps = 0 ∧
  shape0 (dones data) `mod` gradient_steps = 0.





(** The loop on a sliceable sample, one cycle at a time: the critic call of
    cycle [i] from the locals [s], and the locals it leaves. *)
Definition cycle_call (gamma : Float) (gradient_steps : Z) (data : ReplayBufferSamplesNp)
    (actor_state : ActorState) (ent_coef_state : EntCoefState) (i : nat) (s : locals)
  : critic_call :=
  {| cc_gamma := gamma; cc_actor_state := actor_state; cc_qf_state := qf_state s;
     cc_ent_coef_state := ent_coef_state;
     cc_observations := micro_batch gradient_steps i (observations data);
     cc_actions := micro_batch gradient_steps i (actions data);
     cc_next_observations := micro_batch gradient_steps i (next_observations data);
     cc_rewards := micro_batch gradient_steps i (rewards data);
     cc_dones := micro_batch gradient_steps i (dones data);
     cc_key := key s |}.

Definition cycle_next (actor : Actor) (qf : Qf) (ent_coef : EntCoef) (tau : Float)
    (i : nat) (c : critic_call) (s : locals) : locals :=
  let r := run_update_critic actor qf ent_coef c in
  {| n_updates := wrap32 (n_updates s + 1); qf_state := SAC_soft_update tau r.1.1;
     key := r.2; slice_ := Some (Z.of_nat i);
     qf_loss_value := Some r.1.2.1; ent_coef_value := Some r.1.2.2 |}.

Definition cycle_log (actor : Actor) (qf : Qf) (ent_coef : EntCoef) (tau : Float)
    (c : critic_call) : list update :=
  [Update_critic c; Soft_update tau (run_update_critic actor qf ent_coef c).1.1].

Fixpoint after_cycles (actor : Actor) (qf : Qf) (ent_coef : EntCoef) (gamma tau : Float)
    (gradient_steps : Z) (data : ReplayBufferSamplesNp) (actor_state : ActorState)
    (ent_coef_state : EntCoefState) (s0 : locals) (i : nat) : locals :=
  match i with
  | O => s0
  | S j =>
      let s := after_cycles actor qf ent_coef gamma tau gradient_steps data
                 actor_state ent_coef_state s0 j in
      cycle_next actor qf ent_coef tau j
        (cycle_call gamma gradient_steps data actor_state ent_coef_state j s) s
  end.

(** The values the loss of [update_actor] is computed from: the sampled
    actions, their log-probabilities, the critic ensemble on them and the
    temperature. *)
Definition sampled_actions (actor : Actor) (actor_state : ActorState)
    (observations : ndarray) (key : Key) : Actions :=
  dist_sample (actor_apply actor (actor_params actor_state) observations)
    (jax_random_split key 3 2).

Definition sampled_log_prob (actor : Actor) (actor_state : ActorState)
    (observations : ndarray) (key : Key) : list Float :=
  dist_log_prob (actor_apply actor (actor_params actor_state) observations)
    (sampled_actions actor actor_state observations key).

Definition ensemble_values (actor : Actor) (qf : Qf) (actor_state : ActorState)
    (qf_state : QfState) (observations : ndarray) (key : Key) : list (list Float) :=
  qf_apply qf (qf_params qf_state) observations
    (sampled_actions actor actor_state observations key) (jax_random_split key 3 1).

Definition temperature (ent_coef : EntCoef) (ent_coef_state : EntCoefState) : Float :=
  ent_coef_apply ent_coef (ent_coef_params ent_coef_state).

(** The five arrays of a sample. *)
Definition arrays (data : ReplayBufferSamplesNp) : list ndarray :=
  [observations data; actions data; next_observations data; rewards data; dones data].

(** The locals on entry of the loop. *)
Definition start (n_updates0 : Z) (qf_state0 : QfState) (key0 : Key) : locals :=
  {| n_updates := n_updates0; qf_state := qf_state0; key := key0;
     slice_ := None; qf_loss_value := None; ent_coef_value := None |}.

(** The calls of the first [k] cycles. *)
Definition cycles_log (actor : Actor) (qf : Qf) (ent_coef : EntCoef) (gamma tau : Float)
    (gradient_steps : Z) (data : ReplayBufferSamplesNp) (actor_state : ActorState)
    (ent_coef_state : EntCoefState) (s0 : locals) (k : nat) : list update :=
  i ← seq 0 k;
  cycle_log actor qf ent_coef tau
    (cycle_call gamma gradient_steps data actor_state ent_coef_state i
       (after_cycles actor qf ent_coef gamma tau gradient_steps data
          actor_state ent_coef_state s0 i)).

(** The actor call made from the locals [s] on micro-batch [i]. *)
Definition actor_call_on (gradient_steps : Z) (data : ReplayBufferSamplesNp)
    (actor_state : ActorState) (ent_coef_state : EntCoefState) (i : nat) (s : locals)
  : actor_call :=
  {| ac_actor_state := actor_state; ac_qf_state := qf_state s;
     ac_ent_coef_state := ent_coef_state;
     ac_observations := micro_batch gradient_steps i (observations data);
     ac_key := key s |}.

End Vocabulary.

(** ** Stub collaborators

    Deterministic stand-ins for the networks and for [sbx.sac.sac], on which
    the definitions above evaluate. Keys are the paths of a splitting tree:
    entry [i] of a split appends [i] to the path, and the critic update
    hands back entry [0] of a three-way split of the key it received. A train
    state is the number of gradient steps applied to it. The critics are
    two members returning the row value and three times the row value. *)
Module Stub.

Definition split (k : list nat) (num i : nat) : list nat := k ++ [i].

Definition qf_members (observations : list Z) : list (list Float) :=
  [Qc_of_Z <$> observations; (λ r, Qc_of_Z (3 * r)) <$> observations].

Definition update_critic (gamma : Float) (qf_state : nat) (observations : list Z)
    (k : list nat) : nat * (Float * Float) * list nat :=
  (S qf_state, (Qc_of_Z (shape0 observations), gamma), split k 3 0).

Definition collaborators : Collaborators := {|
  Row := Z;
  Key := list nat;
  Actor := unit;
  Qf := unit;
  EntCoef := unit;
  ActorState := nat;
  QfState := nat;
  EntCoefState := nat;
  ActorParams := nat;
  QfParams := nat;
  EntCoefParams := nat;
  Grads := unit;
  Dist := list Z;
  Actions := list Z;
  jax_random_split := split;
  actor_params := λ s, s;
  qf_params := λ s, s;
  ent_coef_params := λ s, s;
  apply_gradients := λ s _, S s;
  actor_apply := λ _ _ observations, observations;
  dist_sample := λ dist _, dist;
  dist_log_prob := λ _ acts, Qc_of_Z <$> acts;
  qf_apply := λ _ _ observations _ _, qf_members observations;
  ent_coef_apply := λ _ _, Q2Qc (1 # 2);
  jax_grad := λ _ _, tt;
  SAC_update_critic := λ _ _ _ gamma _ qf_state _ observations _ _ _ _ k,
    update_critic gamma qf_state observations k;
  SAC_soft_update := λ _ qf_state, qf_state;
  SAC_update_temperature := λ _ _ ent_coef_state _, (S ent_coef_state, 0%Qc)
|}.

(** A sample of four transitions; the rows are numbered. *)
Definition data4 : @ReplayBufferSamplesNp collaborators :=
  @Build_ReplayBufferSamplesNp collaborators
    [10; 11; 12; 13] [20; 21; 22; 23] [30; 31; 32; 33] [0; 0; 0; 1] [40; 41; 42; 43].

(** A sample of three transitions. *)
Definition data3 : @ReplayBufferSamplesNp collaborators :=
  @Build_ReplayBufferSamplesNp collaborators
    [10; 11; 12] [20; 21; 22] [30; 31; 32] [0; 0; 1] [40; 41; 42].

(** A sample whose arrays differ in length, each of even length. *)
Definition data_unequal : @ReplayBufferSamplesNp collaborators :=
  @Build_ReplayBufferSamplesNp collaborators
    [10; 11; 12; 13] [20; 21] [30; 31; 32; 33; 34; 35] [] [40; 41].

(** An empty sample. *)
Definition data_empty : @ReplayBufferSamplesNp collaborators :=
  @Build_ReplayBufferSamplesNp collaborators [] [] [] [] [].





(** [_train] on the stubs, from zero updates, fresh states and the root key. *)
Definition train (gamma tau : Float) (gradient_steps : Z)
    (data : @ReplayBufferSamplesNp collaborators) :=
  @_train collaborators tt tt tt gamma tau (-1)%Qc gradient_steps data 0 0%nat 0%nat 0%nat [].

Definition externals : Externals := {|
  Policy := unit;
  GymEnv := unit;
  Schedule := unit;
  ActionNoise := unit;
  Attributes := unit
|}.

(** A parent constructor that keeps the caller's dictionary, or a new empty
    one when none is given. *)
Definition parent_init (a : @sac_kwargs externals) : exn + @instance externals :=
  inr (@Build_instance externals (default ∅ (sac_policy_kwargs a)) tt).

(** The constructor arguments of a caller that leaves the defaults except
    for [policy_kwargs]. *)
Definition kwargs_with (d : gmap string value) : @droq_kwargs externals :=
  let a := @default_kwargs externals tt (inl tt) in
  @Build_droq_kwargs externals (policy a) (env a) (learning_rate a) (buffer_size a)
    (learning_starts a) (batch_size a) (tau a) (gamma a) (train_freq a)
    (gradient_steps a) (dropout_rate a) (layer_norm a) (action_noise a) (ent_coef a)
    (use_sde a) (sde_sample_freq a) (use_sde_at_warmup a) (tensorboard_log a)
    (Some d) (verbose a) (seed a) (device a) (_init_setup_model a).

(** A caller's dictionary that already holds the two names. *)
Definition caller_kwargs : gmap string value :=
  <["layer_norm"%string := VBool false]>
    (<["dropout_rate"%string := VFloat (Q2Qc (1 # 2))]> ∅).

(** Counters: zero, and the largest [int32]. *)
Definition zero32 : int32 := {| int32_val := 0; int32_ok := eq_refl |}.
Definition max32 : int32 := {| int32_val := 2147483647; int32_ok := eq_refl |}.

(** Hyper-parameters in range, and out of range. *)
Definition gamma_ok : Float := Q2Qc (99 # 100).
Definition tau_ok : Float := Q2Qc (5 # 1000).
Definition gamma_bad : Float := Qc_of_Z 5.
Definition tau_bad : Float := Qc_of_Z 2.

End Stub.

(** * Properties *)

(** ** The monad *)

Section Monad_facts.

Context {E : Type}.

Lemma bind_value {A B} (l : list E) (a : A) (f : A → py E B) :
  ((l, inr a) ≫= f) = (l ++ (f a).1, (f a).2).
Proof. unfold mbind, py_bind. by destruct (f a). Qed.

Lemma bind_exn {A B} (l : list E) (e : exn) (f : A → py E B) :
  ((l, inl e) ≫= f) = (l, inl e).
Proof. reflexivity. Qed.

Lemma bind_mret {A B} (a : A) (f : A → py E B) : (mret a ≫= f) = f a.
Proof. unfold mret, py_ret. rewrite bind_value. by destruct (f a). Qed.

Lemma bind_raise {A B} (e : exn) (f : A → py E B) : (raise e ≫= f) = raise e.
Proof. reflexivity. Qed.

Lemma bind_call {B} (ev : E) (f : unit → py E B) :
  (call ev ≫= f) = (ev :: (f tt).1, (f tt).2).
Proof. unfold call. by rewrite bind_value. Qed.

Lemma for_app {S} (xs ys : list Z) (body : Z → S → py E S) (s : S) :
  for_ (xs ++ ys) body s = for_ xs body s ≫= for_ ys body.
Proof.
  revert s. induction xs as [|i xs IH]; intros s.
  - symmetry. apply (bind_mret s (for_ ys body)).
  - change (for_ ((i :: xs) ++ ys) body s) with (body i s ≫= for_ (xs ++ ys) body).
    change (for_ (i :: xs) body s) with (body i s ≫= for_ xs body).
    destruct (body i s) as [l [e|s']]; [done|].
    rewrite !bind_value, IH.
    destruct (for_ xs body s') as [l1 [e|s1]].
    + by rewrite !bind_exn.
    + rewrite !bind_value. simpl. destruct (for_ ys body s1). simpl.
      by rewrite app_assoc.
Qed.

End Monad_facts.

(** ** Traced integers *)

Lemma in_int32_spec (z : Z) : in_int32 z = true ↔ int32_min ≤ z ≤ int32_max.
Proof. unfold in_int32. rewrite andb_true_iff, !Z.leb_le. done. Qed.

Lemma wrap32_in_range (z : Z) : in_int32 z = true → wrap32 z = z.
Proof.
  rewrite in_int32_spec. unfold wrap32, int32_min, int32_max. intros Hz.
  rewrite Z.mod_small by lia. lia.
Qed.

Lemma in_int32_wrap32 (z : Z) : in_int32 (wrap32 z) = true.
Proof.
  apply in_int32_spec. unfold wrap32, int32_min, int32_max.
  pose proof (Z.mod_pos_bound (z - - 2 ^ 31) (2 ^ 32) ltac:(lia)). lia.
Qed.

Lemma wrap32_add_l (a b : Z) : wrap32 (wrap32 a + b) = wrap32 (a + b).
Proof.
  unfold wrap32. f_equal.
  replace ((a - int32_min) `mod` 2 ^ 32 + int32_min + b - int32_min)
    with ((a - int32_min) `mod` 2 ^ 32 + b) by lia.
  rewrite Zplus_mod_idemp_l. f_equal. lia.
Qed.

Lemma jit_int32_in_range {E} (z : Z) : in_int32 z = true → @jit_int32 E z = mret z.
Proof. intros Hz. unfold jit_int32. by rewrite Hz. Qed.

Lemma jit_int32_overflow {E} (z : Z) :
  in_int32 z = false → @jit_int32 E z = raise OverflowError.
Proof. intros Hz. unfold jit_int32. by rewrite Hz. Qed.

(** ** Slicing *)

Lemma range_nonpos (n : Z) : n ≤ 0 → range n = [].
Proof. intros Hn. unfold range. by replace (Z.to_nat n) with 0%nat by lia. Qed.

Lemma range_nat (n : nat) : range (Z.of_nat n) = Z.of_nat <$> seq 0 n.
Proof. unfold range. by rewrite Nat2Z.id. Qed.

Lemma length_rows {A} (x : list A) (lo hi : nat) :
  (hi ≤ length x)%nat → length (rows x lo hi) = (hi - lo)%nat.
Proof. intros Hhi. unfold rows. rewrite length_take, length_drop. lia. Qed.

Lemma getslice_rows {A} (x : list A) (lo hi : Z) :
  0 ≤ lo → lo ≤ hi → hi ≤ shape0 x →
  getslice x lo hi = rows x (Z.to_nat lo) (Z.to_nat hi).
Proof.
  intros Hlo Hle Hhi. unfold getslice, rows, clip_index.
  destruct (Z.ltb_spec lo 0); [lia|]. destruct (Z.ltb_spec hi 0); [lia|].
  rewrite !Z.min_l by lia. f_equal. lia.
Qed.

Lemma micro_batch_size_spec {A} (gs : Z) (x : list A) :
  1 ≤ gs → shape0 x `mod` gs = 0 →
  length x = (Z.to_nat gs * micro_batch_size gs x)%nat.
Proof.
  intros Hgs Hmod. unfold micro_batch_size.
  assert (shape0 x = gs * (shape0 x `div` gs)) as Heq
    by (apply Z_div_exact_full_2; lia).
  assert (0 ≤ shape0 x `div` gs) by (apply Z.div_pos; unfold shape0; lia).
  rewrite <-Z2Nat.inj_mul by lia. rewrite <-Heq. unfold shape0. lia.
Qed.

Lemma slice_ok {E A} (gs : Z) (i : nat) (x : list A) :
  Z.of_nat i < gs → shape0 x `mod` gs = 0 →
  @slice E A gs (Z.of_nat i) x = mret (micro_batch gs i x).
Proof.
  intros Hi Hmod. unfold slice.
  destruct (decide (gs = 0)); [lia|]. destruct (decide _); [|done].
  pose proof (micro_batch_size_spec gs x ltac:(lia) Hmod) as Hlen.
  assert (0 ≤ shape0 x `div` gs) as Hm by (apply Z.div_pos; unfold shape0; lia).
  unfold micro_batch. cbv zeta.
  assert (Z.to_nat (shape0 x `div` gs * Z.of_nat i) = (i * micro_batch_size gs x)%nat)
    as Hlo by (unfold micro_batch_size; rewrite Z2Nat.inj_mul by lia; lia).
  assert (Z.to_nat (shape0 x `div` gs * (Z.of_nat i + 1))
          = ((i + 1) * micro_batch_size gs x)%nat)
    as Hhi by (unfold micro_batch_size; rewrite Z2Nat.inj_mul by lia; lia).
  rewrite getslice_rows; [by rewrite Hlo, Hhi|..];
    unfold micro_batch_size, shape0 in *; clear Hlo Hhi Hmod e;
    set (M := Z.of_nat (length x) `div` gs) in *; clearbody M; nia.
Qed.

Lemma slice_assert {E A} (gs step : Z) (x : list A) :
  1 ≤ gs → shape0 x `mod` gs ≠ 0 → @slice E A gs step x = raise AssertionError.
Proof.
  intros Hgs Hmod. unfold slice.
  destruct (decide (gs = 0)); [lia|]. by destruct (decide _).
Qed.

Lemma micro_batch_whole {A} (x : list A) : micro_batch 1 0 x = x.
Proof.
  unfold micro_batch, micro_batch_size, rows, shape0.
  rewrite Z.div_1_r, Nat2Z.id. simpl. rewrite Nat.add_0_r, Nat.sub_0_r.
  by apply take_ge.
Qed.

(** X9. Past the last micro-batch [slice] does not fail: for
    [gradient_steps >= 1], an array whose length is divisible by it and a
    [step] of at least [gradient_steps], the result is the empty array. *)
Theorem slice_past_the_end {E A} (gs step : Z) (x : list A) :
  1 ≤ gs → shape0 x `mod` gs = 0 → gs ≤ step →
  @slice E A gs step x = mret [].
Proof.
  intros Hgs Hmod Hstep. unfold slice.
  destruct (decide (gs = 0)); [lia|]. destruct (decide _); [|done].
  f_equal. f_equal. unfold getslice, clip_index.
  assert (shape0 x = gs * (shape0 x `div` gs)) as Heq
    by (apply Z_div_exact_full_2; lia).
  assert (0 ≤ shape0 x `div` gs) as Hm by (apply Z.div_pos; unfold shape0; lia).
  set (m := shape0 x `div` gs) in *. clearbody m. clear Hmod e.
  assert (shape0 x ≤ m * step) as Hlo by nia.
  assert (shape0 x ≤ m * (step + 1)) as Hhi by nia.
  destruct (Z.ltb_spec (m * step) 0); [unfold shape0 in *; lia|].
  destruct (Z.ltb_spec (m * (step + 1)) 0); [unfold shape0 in *; lia|].
  rewrite !Z.min_r by lia. rewrite Z.sub_diag. by rewrite take_0.
Qed.

Lemma length_micro_batch {A} (gs : Z) (i : nat) (x : list A) :
  Z.of_nat i < gs → shape0 x `mod` gs = 0 →
  length (micro_batch gs i x) = micro_batch_size gs x.
Proof.
  intros Hi Hmod. pose proof (micro_batch_size_spec gs x ltac:(lia) Hmod) as Hlen.
  unfold micro_batch. rewrite length_rows; [lia|]. rewrite Hlen.
  set (m := micro_batch_size gs x). clearbody m. nia.
Qed.

Lemma micro_batches_prefix {A} (gs : Z) (x : list A) (k : nat) :
  mjoin ((λ i, micro_batch gs i x) <$> seq 0 k) = take (k * micro_batch_size gs x) x.
Proof.
  induction k as [|k IH]; [done|].
  rewrite seq_S, fmap_app, join_app, IH. simpl. rewrite app_nil_r.
  unfold micro_batch, rows.
  replace ((k + 1) * micro_batch_size gs x - k * micro_batch_size gs x)%nat
    with (micro_batch_size gs x) by lia.
  rewrite take_take_drop. f_equal. lia.
Qed.

Lemma micro_batches_partition {A} (gs : Z) (x : list A) :
  1 ≤ gs → shape0 x `mod` gs = 0 →
  mjoin ((λ i, micro_batch gs i x) <$> seq 0 (Z.to_nat gs)) = x.
Proof.
  intros Hgs Hmod. rewrite micro_batches_prefix.
  apply take_ge. rewrite (micro_batch_size_spec gs x) by done. lia.
Qed.

(** ** Array arithmetic *)

Lemma sum_opp (x : list Float) : sum (Qcopp <$> x) = (- sum x)%Qc.
Proof.
  unfold Float in *. induction x as [|a x IH]; cbn [fmap list_fmap sum foldr].
  - ring.
  - fold (sum (Qcopp <$> x)). fold (sum x). rewrite IH. ring.
Qed.

Lemma mean_opp (x : list Float) : mean (Qcopp <$> x) = (- mean x)%Qc.
Proof.
  unfold mean, shape0. rewrite sum_opp, length_fmap. unfold Float, Qcdiv. ring.
Qed.

Lemma zip_with_fmap_seq {A B C D} (f : B → C → D) (g : A → B) (h : nat → C)
    (d : A) (l : list A) :
  zip_with f (g <$> l) (h <$> seq 0 (length l))
  = (λ j, f (g (nth j l d)) (h j)) <$> seq 0 (length l).
Proof.
  revert h. induction l as [|a l IH]; intros h; [done|].
  cbn [length seq fmap list_fmap zip_with]. f_equal.
  rewrite <-!fmap_S_seq, <-!list_fmap_compose. apply IH.
Qed.

Lemma sub_scale_mean_axis0 (temperature : Float) (log_prob : list Float)
    (qf_pi : list (list Float)) :
  qf_pi ≠ [] → Forall (λ member, length member = length log_prob) qf_pi →
  sub (scale temperature log_prob) (mean_axis0 qf_pi)
  = (λ j, (temperature * nth j log_prob 0
           - mean ((λ member, nth j member 0%Qc) <$> qf_pi))%Qc)
      <$> seq 0 (length log_prob).
Proof.
  intros Hne Hlen. destruct qf_pi as [|member qf_pi]; [done|].
  unfold sub, scale, mean_axis0.
  rewrite (Forall_inv Hlen).
  apply (zip_with_fmap_seq Qcminus (Qcmult temperature)
           (λ j, mean ((λ member0, nth j member0 0%Qc) <$> member :: qf_pi)) 0%Qc).
Qed.

(** The array mean of the code is the arithmetic mean. *)

Lemma index_sum_ext (f g : nat → Qc) (n : nat) :
  (∀ j, (j < n)%nat → f j = g j) → index_sum f n = index_sum g n.
Proof.
  induction n as [|n IH]; intros Hfg; [done|]. simpl.
  rewrite IH by (intros j Hj; apply Hfg; lia). by rewrite Hfg by lia.
Qed.

Lemma average_ext (f g : nat → Qc) (n : nat) :
  (∀ j, (j < n)%nat → f j = g j) → average n f = average n g.
Proof. intros Hfg. unfold average. by rewrite (index_sum_ext f g). Qed.

Lemma sum_snoc (x : list Float) (a : Float) : sum (x ++ [a]) = (sum x + a)%Qc.
Proof.
  unfold Float in *. induction x as [|b x IH]; cbn [app sum foldr].
  - ring.
  - fold (sum (x ++ [a])). fold (sum x). rewrite IH. ring.
Qed.

Lemma sum_index_sum (x : list Float) :
  sum x = index_sum (λ j, nth j x 0%Qc) (length x).
Proof.
  induction x as [|a x IH] using rev_ind; [done|].
  rewrite sum_snoc, length_app, Nat.add_comm. cbn [length Nat.add index_sum].
  rewrite IH. f_equal.
  - apply index_sum_ext. intros j Hj. by rewrite app_nth1.
  - rewrite app_nth2 by lia. by rewrite Nat.sub_diag.
Qed.

Lemma mean_average (x : list Float) :
  mean x = average (length x) (λ j, nth j x 0%Qc).
Proof. unfold mean, average, shape0. by rewrite sum_index_sum. Qed.

Lemma nth_fmap_lt {A} (f : A → Qc) (l : list A) (d : A) (i : nat) :
  (i < length l)%nat → nth i (f <$> l) 0%Qc = f (nth i l d).
Proof.
  intros Hi. destruct (lookup_lt_is_Some_2 l i Hi) as [a Ha].
  rewrite (nth_lookup_Some l i d a Ha).
  apply nth_lookup_Some. by rewrite list_lookup_fmap, Ha.
Qed.

Lemma mean_fmap (A : Type) (f : A → Qc) (l : list A) (d : A) :
  mean (f <$> l) = average (length l) (λ i, f (nth i l d)).
Proof.
  rewrite mean_average, length_fmap. apply average_ext.
  intros i Hi. by apply nth_fmap_lt.
Qed.

Lemma mean_fmap_seq (g : nat → Qc) (n : nat) :
  mean (g <$> seq 0 n) = average n g.
Proof.
  rewrite (mean_fmap nat g (seq 0 n) 0%nat), length_seq. apply average_ext.
  intros j Hj. by rewrite seq_nth.
Qed.

(** ** [update_actor] *)

Section Actor_facts.

Context `{Collaborators}.

Variables (actor : Actor) (qf : Qf) (ent_coef : EntCoef).
Variables (actor_state : ActorState) (qf_state : QfState).
Variables (ent_coef_state : EntCoefState) (observations : ndarray) (key : Key).

Local Abbreviation sampled_log_prob :=
  (sampled_log_prob actor actor_state observations key).
Local Abbreviation ensemble_values :=
  (ensemble_values actor qf actor_state qf_state observations key).
Local Abbreviation temperature := (temperature ent_coef ent_coef_state).

Lemma update_actor_unfold :
  update_actor actor qf ent_coef actor_state qf_state ent_coef_state observations key
  = (apply_gradients actor_state
       (jax_grad
          (actor_loss actor qf ent_coef qf_state ent_coef_state observations
             (jax_random_split key 3 1) (jax_random_split key 3 2))
          (actor_params actor_state)),
     qf_state,
     mean (sub (scale temperature sampled_log_prob) (mean_axis0 ensemble_values)),
     jax_random_split key 3 0,
     (- mean sampled_log_prob)%Qc).
Proof. reflexivity. Qed.

(** C2. In [update_actor] the critic ensemble evaluated at the observations
    and the sampled actions is reduced by the mean over its members: for a
    batch of at least one row and an ensemble of at least one member whose
    outputs have one value per log-probability, the returned loss is the
    arithmetic mean over the batch rows of [temperature * log_prob - mean_Q],
    where [mean_Q] is the arithmetic mean over the members of their value on
    the row, and the returned entropy estimate is the arithmetic mean over
    the batch rows of [- log_prob]. *)
Theorem update_actor_loss_mean_over_critics :
  sampled_log_prob ≠ [] → ensemble_values ≠ [] →
  Forall (λ member, length member = length sampled_log_prob) ensemble_values →
  let r := update_actor actor qf ent_coef actor_state qf_state ent_coef_state
             observations key in
  r.1.1.2 = spec_actor_loss temperature sampled_log_prob ensemble_values ∧
  r.2 = spec_entropy sampled_log_prob.
Proof.
  intros _ Hne Hlen r. unfold r. rewrite update_actor_unfold. cbn [fst snd].
  split.
  - rewrite sub_scale_mean_axis0, mean_fmap_seq by done.
    unfold spec_actor_loss. apply average_ext. intros j _. f_equal.
    unfold spec_mean_Q. apply (mean_fmap _ (λ member, nth j member 0%Qc)).
  - rewrite <-mean_opp. unfold spec_entropy. apply (mean_fmap _ Qcopp _ 0%Qc).
Qed.




End Actor_facts.

(** ** The loop of [_train] *)

Section Train_facts.

Context `{Collaborators}.

Variables (actor : Actor) (qf : Qf) (ent_coef : EntCoef).
Variables (gamma tau target_entropy : Float) (gs : Z).
Variables (data : ReplayBufferSamplesNp).
Variables (actor_state : ActorState) (ent_coef_state : EntCoefState).

(** Below, [nu] is the [n_updates] argument of an invocation, an integer a
    traced [int32] can hold. *)

Local Abbreviation body := (cycle actor qf ent_coef gamma tau gs data actor_state ent_coef_state).
Local Abbreviation call_of := (cycle_call gamma gs data actor_state ent_coef_state).
Local Abbreviation next := (cycle_next actor qf ent_coef tau).
Local Abbreviation after := (after_cycles actor qf ent_coef gamma tau gs data actor_state
                           ent_coef_state).
Local Abbreviation calls := (cycles_log actor qf ent_coef gamma tau gs data actor_state
                           ent_coef_state).

Lemma cycle_ok (i : nat) (s : locals) :
  Z.of_nat i < gs → sliceable gs data →
  body (Z.of_nat i) s
  = (cycle_log actor qf ent_coef tau (call_of i s), inr (next i (call_of i s) s)).
Proof.
  intros Hi (Ho & Ha & Hn & Hr & Hd). unfold cycle, call_slice.
  rewrite !slice_ok, !bind_mret by done. rewrite bind_call.
  fold (call_of i s). unfold cycle_log, cycle_next.
  destruct (run_update_critic actor qf ent_coef (call_of i s)) as [[q [l e]] k].
  by rewrite bind_call.
Qed.

Lemma cycle_assert (i : nat) (s : locals) :
  Z.of_nat i < gs → ¬ sliceable gs data → body (Z.of_nat i) s = raise AssertionError.
Proof.
  intros Hi Hns. unfold cycle, call_slice.
  destruct (decide (shape0 (observations data) `mod` gs = 0)) as [Ho|Ho];
    [rewrite (slice_ok _ _ (observations data)), bind_mret by done
    |by rewrite (slice_assert _ _ (observations data)) by (done || lia)].
  destruct (decide (shape0 (actions data) `mod` gs = 0)) as [Ha|Ha];
    [rewrite (slice_ok _ _ (actions data)), bind_mret by done
    |by rewrite (slice_assert _ _ (actions data)) by (done || lia)].
  destruct (decide (shape0 (next_observations data) `mod` gs = 0)) as [Hn|Hn];
    [rewrite (slice_ok _ _ (next_observations data)), bind_mret by done
    |by rewrite (slice_assert _ _ (next_observations data)) by (done || lia)].
  destruct (decide (shape0 (rewards data) `mod` gs = 0)) as [Hr|Hr];
    [rewrite (slice_ok _ _ (rewards data)), bind_mret by done
    |by rewrite (slice_assert _ _ (rewards data)) by (done || lia)].
  destruct (decide (shape0 (dones data) `mod` gs = 0)) as [Hd|Hd];
    [|by rewrite (slice_assert _ _ (dones data)) by (done || lia)].
  by destruct Hns.
Qed.

Lemma after_cycles_S (s0 : locals) (k : nat) :
  after s0 (S k) = next k (call_of k (after s0 k)) (after s0 k).
Proof. reflexivity. Qed.

Lemma cycles_log_S (s0 : locals) (k : nat) :
  calls s0 (S k)
  = calls s0 k ++ cycle_log actor qf ent_coef tau (call_of k (after s0 k)).
Proof.
  unfold cycles_log. rewrite seq_S, bind_app. f_equal.
Qed.

Lemma loop_ok (s0 : locals) (k : nat) :
  Z.of_nat k ≤ gs → sliceable gs data →
  for_ (Z.of_nat <$> seq 0 k) body s0 = (calls s0 k, inr (after s0 k)).
Proof.
  intros Hk Hs. induction k as [|k IH]; [done|].
  rewrite seq_S, fmap_app, for_app, IH by lia. simpl seq. simpl fmap.
  rewrite bind_value. change (for_ [Z.of_nat k] body (after s0 k))
    with (body (Z.of_nat k) (after s0 k) ≫= mret).
  rewrite cycle_ok, bind_value by (done || lia).
  rewrite cycles_log_S, after_cycles_S. cbn [fst snd mret py_ret].
  by rewrite app_nil_r.
Qed.

Lemma loop_assert (s0 : locals) :
  1 ≤ gs → ¬ sliceable gs data → for_ (range gs) body s0 = raise AssertionError.
Proof.
  intros Hgs Hns. unfold range.
  destruct (Z.to_nat gs) as [|n] eqn:Hn; [lia|].
  change (for_ (Z.of_nat <$> seq 0 (S n)) body s0)
    with (body (Z.of_nat 0) s0 ≫= for_ (Z.of_nat <$> seq 1 n) body).
  by rewrite cycle_assert by (done || lia).
Qed.

Lemma train_unbound (nu : int32) (q0 : QfState) (k0 : Key) :
  gs ≤ 0 →
  _train actor qf ent_coef gamma tau target_entropy gs data nu q0 actor_state
    ent_coef_state k0 = raise UnboundLocalError.
Proof.
  intros Hgs. unfold _train.
  rewrite jit_int32_in_range, bind_mret by apply int32_ok. by rewrite range_nonpos.
Qed.

Lemma train_assert (nu : int32) (q0 : QfState) (k0 : Key) :
  1 ≤ gs → ¬ sliceable gs data →
  _train actor qf ent_coef gamma tau target_entropy gs data nu q0 actor_state
    ent_coef_state k0 = raise AssertionError.
Proof.
  intros Hgs Hns. unfold _train.
  rewrite jit_int32_in_range, bind_mret by apply int32_ok. by rewrite loop_assert.
Qed.

Lemma train_ok (nu : int32) (q0 : QfState) (k0 : Key) (j : nat) :
  gs = Z.of_nat (S j) → sliceable gs data →
  let s0 := start nu q0 k0 in
  let c := call_of j (after s0 j) in
  let s := after s0 (S j) in
  let a := actor_call_on gs data actor_state ent_coef_state j s in
  let r := run_update_actor actor qf ent_coef a in
  let rc := run_update_critic actor qf ent_coef c in
  _train actor qf ent_coef gamma tau target_entropy gs data nu q0 actor_state
    ent_coef_state k0
  = (calls s0 (S j)
       ++ [Update_actor a; Update_temperature target_entropy ent_coef_state r.2],
     inr (n_updates s, r.1.1.1.2, r.1.1.1.1,
          (SAC_update_temperature ent_coef target_entropy ent_coef_state r.2).1,
          r.1.2, (r.1.1.2, rc.1.2.1, rc.1.2.2))).
Proof.
  intros Hgs Hs s0 c s a r rc. unfold _train.
  rewrite jit_int32_in_range, bind_mret by apply int32_ok.
  assert (range gs = Z.of_nat <$> seq 0 (S j)) as -> by (by rewrite Hgs, range_nat).
  change (Build_locals nu q0 k0 None None None) with s0.
  rewrite loop_ok by (done || lia). fold s. rewrite bind_value. cbv beta.
  assert (slice_ s = Some (Z.of_nat j)) as -> by done.
  assert (qf_loss_value s = Some rc.1.2.1) as -> by done.
  assert (ent_coef_value s = Some rc.1.2.2) as -> by done.
  unfold call_slice. rewrite slice_ok, bind_mret by (lia || apply Hs).
  fold (actor_call_on gs data actor_state ent_coef_state j s). fold a.
  rewrite bind_call. fold r.
  destruct r as [[[[a' q'] l'] k'] e'] eqn:Hr.
  rewrite bind_call. cbn [fst snd].
  destruct (SAC_update_temperature ent_coef target_entropy ent_coef_state e').
  unfold load. by rewrite !bind_mret.
Qed.

(** *** What the log of the cycles holds *)

Lemma sliceable_batch (bs : nat) :
  batch_of_size data bs → Z.of_nat bs `mod` gs = 0 → sliceable gs data.
Proof.
  intros (Ho & Ha & Hn & Hr & Hd) Hmod. unfold sliceable, shape0.
  by rewrite Ho, Ha, Hn, Hr, Hd.
Qed.

Lemma sliceable_dec : Decision (sliceable gs data).
Proof. unfold sliceable. apply _. Qed.

Lemma n_updates_after (s0 : locals) (k : nat) :
  in_int32 (n_updates s0) = true →
  n_updates (after s0 k) = wrap32 (n_updates s0 + Z.of_nat k).
Proof.
  intros Hs0. induction k as [|k IH].
  - simpl. by rewrite Z.add_0_r, wrap32_in_range.
  - rewrite after_cycles_S. unfold cycle_next. cbn [n_updates].
    rewrite IH, wrap32_add_l. f_equal. lia.
Qed.

Lemma kinds_cycles (s0 : locals) (k : nat) :
  kind_of <$> calls s0 k = mjoin (replicate k [Critic_update; Target_soft_update]).
Proof.
  induction k as [|k IH]; [done|].
  rewrite cycles_log_S, fmap_app, IH.
  replace (S k) with (k + 1)%nat by lia.
  rewrite replicate_add, join_app. by simpl.
Qed.

Lemma critic_calls_cycles (s0 : locals) (k : nat) :
  critic_calls (calls s0 k) = (λ i, call_of i (after s0 i)) <$> seq 0 k.
Proof.
  induction k as [|k IH]; [done|].
  unfold critic_calls in *. by rewrite cycles_log_S, omap_app, IH, seq_S, fmap_app.
Qed.

Lemma actor_calls_cycles (s0 : locals) (k : nat) : actor_calls (calls s0 k) = [].
Proof.
  induction k as [|k IH]; [done|].
  unfold actor_calls in *. by rewrite cycles_log_S, omap_app, IH.
Qed.

Lemma soft_update_rates_cycles (s0 : locals) (k : nat) :
  soft_update_rates (calls s0 k) = replicate k tau.
Proof.
  induction k as [|k IH]; [done|].
  unfold soft_update_rates in *. rewrite cycles_log_S, omap_app, IH.
  replace (S k) with (k + 1)%nat by lia. by rewrite replicate_add.
Qed.




Lemma count_kind_schedule (n : nat) (l : list update) :
  kind_of <$> l = schedule n →
  count_kind Critic_update l = n ∧ count_kind Target_soft_update l = n ∧
  count_kind Actor_update l = 1%nat ∧ count_kind Temperature_update l = 1%nat.
Proof.
  intros Hl. unfold count_kind. rewrite Hl. unfold schedule. clear Hl.
  induction n as [|n IH]; [done|].
  destruct IH as (IH1 & IH2 & IH3 & IH4). simpl.
  rewrite !filter_cons. repeat case_decide; try done. simpl. auto.
Qed.

(** *** The update schedule *)

(** C1, as the code has it. With [gradient_steps = n >= 1], a batch whose
    length is divisible by [n] and an [n_updates] a traced [int32] can hold,
    [_train] returns, and its log is [n] times a critic update followed by a
    soft update, then one actor update and one temperature update, whatever
    [n] is. The counter is incremented once per cycle in [int32] arithmetic:
    after any [k <= n] cycles it stands at the given one plus [k] wrapped to
    32 bits, and the returned [n_updates] is the given one plus [n] wrapped
    to 32 bits, which is the given one plus [n] as long as that does not
    exceed [2^31 - 1]. A Python [int] outside the [int32] range is refused
    with [OverflowError]. *)
Theorem train_update_schedule (nu : int32) (q0 : QfState) (k0 : Key) (bs : nat) :
  1 ≤ gs → batch_of_size data bs → Z.of_nat bs `mod` gs = 0 →
  (∃ l q' a' e' k' diag,
     _train actor qf ent_coef gamma tau target_entropy gs data nu q0 actor_state
       ent_coef_state k0 = (l, inr (wrap32 (nu + gs), q', a', e', k', diag)) ∧
     kind_of <$> l = schedule (Z.to_nat gs) ∧
     count_kind Critic_update l = Z.to_nat gs ∧
     count_kind Target_soft_update l = Z.to_nat gs ∧
     count_kind Actor_update l = 1%nat ∧
     count_kind Temperature_update l = 1%nat) ∧
  (nu + gs ≤ int32_max → wrap32 (nu + gs) = nu + gs) ∧
  (∀ k : nat, Z.of_nat k ≤ gs →
     ∃ lk sk, for_ (range (Z.of_nat k)) body (start nu q0 k0) = (lk, inr sk) ∧
              count_kind Critic_update lk = k ∧
              n_updates sk = wrap32 (nu + Z.of_nat k)) ∧
  (∀ z : Z, in_int32 z = false →
     outcome (_train actor qf ent_coef gamma tau target_entropy gs data z q0
                actor_state ent_coef_state k0) = inl OverflowError).
Proof.
  intros Hgs Hbs Hmod. pose proof (sliceable_batch bs Hbs Hmod) as Hs.
  split; [|split; [|split]].
  - destruct (Z.to_nat gs) as [|j] eqn:Hj; [lia|].
    assert (gs = Z.of_nat (S j)) as Hgs' by lia.
    pose proof (train_ok nu q0 k0 j Hgs' Hs) as Ht. cbv zeta in Ht.
    eexists _, _, _, _, _, _.
    rewrite n_updates_after in Ht by apply int32_ok. cbn [start n_updates] in Ht.
    rewrite <-Hgs' in Ht.
    assert (kind_of <$> calls (start nu q0 k0) (S j)
              ++ [Update_actor
                    (actor_call_on gs data actor_state ent_coef_state j
                       (after (start nu q0 k0) (S j)));
                  Update_temperature target_entropy ent_coef_state
                    (run_update_actor actor qf ent_coef
                       (actor_call_on gs data actor_state ent_coef_state j
                          (after (start nu q0 k0) (S j)))).2]
            = schedule (S j)) as Hkinds.
    { rewrite fmap_app, kinds_cycles. done. }
    split; [exact Ht|]. split; [exact Hkinds|].
    destruct (count_kind_schedule _ _ Hkinds) as (? & ? & ? & ?). done.
  - intros Hle. apply wrap32_in_range, in_int32_spec.
    pose proof (proj1 (in_int32_spec nu) (int32_ok nu)). lia.
  - intros k Hk. rewrite range_nat, loop_ok by done. eexists _, _. split; [done|].
    split.
    + unfold count_kind. rewrite kinds_cycles. clear.
      induction k as [|k IH]; [done|]. simpl. rewrite !filter_cons.
      repeat case_decide; try done. simpl. by rewrite IH.
    + by rewrite n_updates_after by apply int32_ok.
  - intros z Hz. unfold _train. by rewrite jit_int32_overflow.
Qed.

(** *** Failures *)

(** C5. With [gradient_steps >= 1] and a batch of [bs] rows: when [bs] is
    not divisible by [gradient_steps] the invocation raises [AssertionError]
    before any update is called, so no shortened micro-batch reaches an
    update; when it is divisible the invocation returns a value, and the
    assertion passes in [slice] at every step on every array. *)
Theorem train_asserts_divisibility (nu : int32) (q0 : QfState) (k0 : Key) (bs : nat) :
  1 ≤ gs → batch_of_size data bs →
  (Z.of_nat bs `mod` gs ≠ 0 →
     _train actor qf ent_coef gamma tau target_entropy gs data nu q0 actor_state
       ent_coef_state k0 = ([], inl AssertionError)) ∧
  (Z.of_nat bs `mod` gs = 0 →
     (∃ l r, _train actor qf ent_coef gamma tau target_entropy gs data nu q0
               actor_state ent_coef_state k0 = (l, inr r)) ∧
     ∀ (x : ndarray) (step : Z), x ∈ arrays data →
       outcome (slice (E := update) gs step x) ≠ inl AssertionError).
Proof.
  intros Hgs (Ho & Ha & Hn & Hr & Hd). split.
  - intros Hmod. apply train_assert; [done|].
    intros (Ho' & _). unfold shape0 in Ho'. by rewrite Ho in Ho'.
  - intros Hmod. split.
    + assert (sliceable gs data) as Hs by (by apply (sliceable_batch bs)).
      destruct (Z.to_nat gs) as [|j] eqn:Hj; [lia|].
      assert (gs = Z.of_nat (S j)) as Hgs' by lia.
      pose proof (train_ok nu q0 k0 j Hgs' Hs) as Ht. cbv zeta in Ht.
      eexists _, _. exact Ht.
    + intros x step Hx. unfold slice.
      destruct (decide (gs = 0)); [lia|].
      destruct (decide (shape0 x `mod` gs = 0)) as [|Hx']; [done|].
      exfalso. apply Hx'. unfold arrays in Hx. unfold shape0.
      rewrite !elem_of_cons, elem_of_nil in Hx.
      destruct Hx as [->|[->|[->|[->|[->|[]]]]]]; congruence.
Qed.

(** *** Which rows each update consumes *)

Lemma train_log_ok (nu : int32) (q0 : QfState) (k0 : Key) (j : nat) :
  gs = Z.of_nat (S j) → sliceable gs data →
  log (_train actor qf ent_coef gamma tau target_entropy gs data nu q0 actor_state
         ent_coef_state k0)
  = calls (start nu q0 k0) (S j)
      ++ [Update_actor
            (actor_call_on gs data actor_state ent_coef_state j
               (after (start nu q0 k0) (S j)));
          Update_temperature target_entropy ent_coef_state
            (run_update_actor actor qf ent_coef
               (actor_call_on gs data actor_state ent_coef_state j
                  (after (start nu q0 k0) (S j)))).2].
Proof.
  intros Hgs Hs. pose proof (train_ok nu q0 k0 j Hgs Hs) as Ht. cbv zeta in Ht.
  by rewrite Ht.
Qed.

(** C3. With [gradient_steps = n >= 1], every actor update of an invocation
    receives rows [(n-1)*m, n*m) of the observations, [m] being their length
    over [n]: the closure left by the loop has [step = n - 1]. When the
    sample passes the assertions there is exactly one such update. *)
Theorem actor_update_last_micro_batch (nu : int32) (q0 : QfState) (k0 : Key) :
  1 ≤ gs →
  let t := _train actor qf ent_coef gamma tau target_entropy gs data nu q0
             actor_state ent_coef_state k0 in
  let n := Z.to_nat gs in
  let m := Z.to_nat (shape0 (observations data) `div` gs) in
  (∀ a, a ∈ actor_calls (log t) →
        ac_observations a = rows (observations data) ((n - 1) * m) (n * m)) ∧
  (sliceable gs data →
     (∃ a, actor_calls (log t) = [a]) ∧
     ∃ l s, for_ (range gs) body (start nu q0 k0) = (l, inr s) ∧
            slice_ s = Some (gs - 1)).
Proof.
  intros Hgs t n m. subst n. destruct sliceable_dec as [Hs|Hns].
  - destruct (Z.to_nat gs) as [|j] eqn:Hj; [lia|].
    assert (gs = Z.of_nat (S j)) as Hgs' by lia.
    assert (actor_calls (log t)
            = [actor_call_on gs data actor_state ent_coef_state j
                 (after (start nu q0 k0) (S j))]) as Hcalls.
    { unfold t. rewrite (train_log_ok nu q0 k0 j Hgs' Hs).
      unfold actor_calls. rewrite omap_app. fold (actor_calls (calls (start nu q0 k0) (S j))).
      by rewrite actor_calls_cycles. }
    split.
    + intros a Ha. rewrite Hcalls in Ha. apply list_elem_of_singleton in Ha as ->.
      unfold actor_call_on, micro_batch. cbn [ac_observations]. unfold m.
      unfold micro_batch_size. replace (S j - 1)%nat with j by lia.
      by replace (S j) with (j + 1)%nat by lia.
    + intros _. split; [by eexists|].
      unfold range. rewrite Hj, loop_ok by (done || lia). eexists _, _. split; [done|].
      rewrite after_cycles_S. cbn [cycle_next slice_]. f_equal. lia.
  - split; [|done]. intros a Ha. unfold t in Ha.
    rewrite train_assert in Ha by done. by apply elem_of_nil in Ha.
Qed.

(** C4. For a batch of [bs] rows with [bs] divisible by [gradient_steps] and
    a cycle index [i] below [gradient_steps], the critic update of cycle [i]
    receives rows [i*m, (i+1)*m) of each of the five arrays, [m] being [bs]
    over [gradient_steps]; for each array these pieces have [m] rows each
    and, put one after the other in the order of the cycles, give back the
    array. *)
Theorem critic_update_micro_batches (nu : int32) (q0 : QfState) (k0 : Key) (bs i : nat) :
  batch_of_size data bs → Z.of_nat bs `mod` gs = 0 → Z.of_nat i < gs →
  let t := _train actor qf ent_coef gamma tau target_entropy gs data nu q0
             actor_state ent_coef_state k0 in
  let m := Z.to_nat (Z.of_nat bs `div` gs) in
  let piece (j : nat) (x : ndarray) := rows x (j * m) ((j + 1) * m) in
  (∃ c, critic_calls (log t) !! i = Some c ∧
        cc_observations c = piece i (observations data) ∧
        cc_actions c = piece i (actions data) ∧
        cc_next_observations c = piece i (next_observations data) ∧
        cc_rewards c = piece i (rewards data) ∧
        cc_dones c = piece i (dones data)) ∧
  Forall (λ x, (∀ j, (j < Z.to_nat gs)%nat → length (piece j x) = m) ∧
               mjoin ((λ j, piece j x) <$> seq 0 (Z.to_nat gs)) = x ∧
               length x = (Z.to_nat gs * m)%nat)
    (arrays data).
Proof.
  intros Hbs Hmod Hi t m piece.
  pose proof (sliceable_batch bs Hbs Hmod) as Hs.
  assert (∀ x : ndarray, x ∈ arrays data → length x = bs) as Hlen.
  { intros x Hx. destruct Hbs as (Ho & Ha & Hn & Hr & Hd). unfold arrays in Hx.
    rewrite !elem_of_cons, elem_of_nil in Hx.
    destruct Hx as [->|[->|[->|[->|[->|[]]]]]]; done. }
  assert (∀ (x : ndarray) j, x ∈ arrays data → piece j x = micro_batch gs j x) as Hpiece.
  { intros x j Hx. unfold piece, micro_batch, micro_batch_size, m, shape0.
    by rewrite (Hlen x Hx). }
  assert (∀ x : ndarray, x ∈ arrays data → shape0 x `mod` gs = 0) as Hdiv.
  { intros x Hx. unfold shape0. by rewrite (Hlen x Hx). }
  assert (∀ x : ndarray, x ∈ arrays data → micro_batch_size gs x = m) as Hm.
  { intros x Hx. unfold micro_batch_size, m, shape0. by rewrite (Hlen x Hx). }
  split.
  - destruct (Z.to_nat gs) as [|j] eqn:Hj; [lia|].
    assert (gs = Z.of_nat (S j)) as Hgs' by lia.
    exists (call_of i (after (start nu q0 k0) i)). split.
    + unfold t. rewrite (train_log_ok nu q0 k0 j Hgs' Hs).
      unfold critic_calls. rewrite omap_app.
      fold (critic_calls (calls (start nu q0 k0) (S j))).
      rewrite critic_calls_cycles. simpl omap. rewrite app_nil_r.
      rewrite list_lookup_fmap, lookup_seq_lt by lia. done.
    + unfold cycle_call. cbn [cc_observations cc_actions cc_next_observations
                                cc_rewards cc_dones].
      rewrite !Hpiece by (unfold arrays; set_solver). done.
  - apply Forall_forall. intros x Hx. split; [|split].
    + intros j Hj. rewrite Hpiece, length_micro_batch by (auto || lia). auto.
    + erewrite list_fmap_ext; [apply (micro_batches_partition gs x); [lia|auto]|].
      intros ? j _. by apply Hpiece.
    + rewrite <-(Hm x Hx). apply micro_batch_size_spec; [lia|auto].
Qed.

(** *** Diagnostics *)

(** C9. With [gradient_steps >= 1] and a sliceable sample, the critic loss
    and the temperature of the returned diagnostics are the pair returned by
    the last critic update of the log, the one of cycle [gradient_steps - 1]
    on micro-batch [gradient_steps - 1] of every array, and nothing of the
    earlier cycles. That critic update received the entropy-coefficient
    state given to the invocation and comes before the temperature update,
    whose result is the returned state. *)
Theorem train_diagnostics_last_cycle (nu : int32) (q0 : QfState) (k0 : Key) :
  1 ≤ gs → sliceable gs data →
  let last_i := (Z.to_nat gs - 1)%nat in
  ∃ l0 c a entropy nu' q' a' k' actor_loss_value,
    let l := l0 ++ [Update_critic c;
                    Soft_update tau (run_update_critic actor qf ent_coef c).1.1;
                    Update_actor a;
                    Update_temperature target_entropy ent_coef_state entropy] in
    _train actor qf ent_coef gamma tau target_entropy gs data nu q0 actor_state
      ent_coef_state k0
    = (l,
       inr (nu', q', a',
            (SAC_update_temperature ent_coef target_entropy ent_coef_state entropy).1,
            k',
            (actor_loss_value,
             (run_update_critic actor qf ent_coef c).1.2.1,
             (run_update_critic actor qf ent_coef c).1.2.2))) ∧
    last (critic_calls l) = Some c ∧
    critic_calls l !! last_i = Some c ∧
    cc_ent_coef_state c = ent_coef_state ∧
    cc_observations c = micro_batch gs last_i (observations data) ∧
    cc_actions c = micro_batch gs last_i (actions data) ∧
    cc_next_observations c = micro_batch gs last_i (next_observations data) ∧
    cc_rewards c = micro_batch gs last_i (rewards data) ∧
    cc_dones c = micro_batch gs last_i (dones data).
Proof.
  intros Hgs Hs last_i. subst last_i.
  destruct (Z.to_nat gs) as [|j] eqn:Hj; [lia|].
  assert (gs = Z.of_nat (S j)) as Hgs' by lia.
  pose proof (train_ok nu q0 k0 j Hgs' Hs) as Ht. cbv zeta in Ht.
  rewrite cycles_log_S in Ht. unfold cycle_log in Ht. rewrite <-app_assoc in Ht.
  eexists _, _, _, _, _, _, _, _, _. cbv zeta. split; [exact Ht|].
  replace (S j - 1)%nat with j by lia.
  unfold critic_calls. rewrite omap_app.
  fold (critic_calls (calls (start nu q0 k0) j)). rewrite critic_calls_cycles.
  cbn [omap list_omap]. split; [by rewrite last_snoc|]. split; [|done].
  rewrite lookup_app_r; rewrite length_fmap, length_seq; [|done].
  by rewrite Nat.sub_diag.
Qed.

(** *** Random keys *)



(** *** After the loop *)

Lemma train_after_loop (nu : int32) (q0 : QfState) (k0 : Key) :
  1 ≤ gs → sliceable gs data →
  ∃ l0 a nu' a' k' diag,
    _train actor qf ent_coef gamma tau target_entropy gs data nu q0 actor_state
      ent_coef_state k0
    = (l0 ++ [Update_actor a;
              Update_temperature target_entropy ent_coef_state
                (run_update_actor actor qf ent_coef a).2],
       inr (nu', ac_qf_state a, a',
            (SAC_update_temperature ent_coef target_entropy ent_coef_state
               (run_update_actor actor qf ent_coef a).2).1,
            k', diag)) ∧
    ac_ent_coef_state a = ent_coef_state ∧
    ac_actor_state a = actor_state ∧
    a' = (run_update_actor actor qf ent_coef a).1.1.1.1.
Proof.
  intros Hgs Hs. destruct (Z.to_nat gs) as [|j] eqn:Hj; [lia|].
  assert (gs = Z.of_nat (S j)) as Hgs' by lia.
  pose proof (train_ok nu q0 k0 j Hgs' Hs) as Ht. cbv zeta in Ht.
  eexists _, _, _, _, _, _. split; [exact Ht|]. done.
Qed.

(** *** Hyper-parameters *)

Lemma train_forwards_rates (nu : int32) (q0 : QfState) (k0 : Key) :
  1 ≤ gs → sliceable gs data →
  ∃ l r, _train actor qf ent_coef gamma tau target_entropy gs data nu q0 actor_state
           ent_coef_state k0 = (l, inr r) ∧
         Forall (λ c, cc_gamma c = gamma) (critic_calls l) ∧
         soft_update_rates l = replicate (Z.to_nat gs) tau.
Proof.
  intros Hgs Hs. destruct (Z.to_nat gs) as [|j] eqn:Hj; [lia|].
  assert (gs = Z.of_nat (S j)) as Hgs' by lia.
  pose proof (train_ok nu q0 k0 j Hgs' Hs) as Ht. cbv zeta in Ht.
  eexists _, _. split; [exact Ht|]. split.
  - unfold critic_calls. rewrite omap_app.
    fold (critic_calls (calls (start nu q0 k0) (S j))).
    rewrite critic_calls_cycles. simpl omap. rewrite app_nil_r.
    apply Forall_fmap, Forall_forall. by intros i _.
  - unfold soft_update_rates. rewrite omap_app.
    fold (soft_update_rates (calls (start nu q0 k0) (S j))).
    rewrite soft_update_rates_cycles. simpl omap. by rewrite app_nil_r.
Qed.

(** *** Further properties of the loop *)

Lemma length_cycles (s0 : locals) (k : nat) : length (calls s0 k) = (2 * k)%nat.
Proof.
  induction k as [|k IH]; [done|].
  rewrite cycles_log_S, length_app, IH. unfold cycle_log. simpl. lia.
Qed.

Lemma lookup_cycles (s0 : locals) (k i : nat) :
  (i < k)%nat →
  calls s0 k !! (2 * i)%nat = Some (Update_critic (call_of i (after s0 i))) ∧
  calls s0 k !! (2 * i + 1)%nat
  = Some (Soft_update tau
            (run_update_critic actor qf ent_coef (call_of i (after s0 i))).1.1).
Proof.
  induction k as [|k IH]; [lia|]. intros Hi. rewrite cycles_log_S.
  destruct (decide (i < k)%nat) as [Hlt|Hge].
  - destruct (IH Hlt) as [IH1 IH2].
    rewrite !lookup_app_l by (rewrite length_cycles; lia). done.
  - assert (i = k) as -> by lia.
    rewrite !lookup_app_r by (rewrite length_cycles; lia). rewrite length_cycles.
    replace (2 * k - 2 * k)%nat with 0%nat by lia.
    replace (2 * k + 1 - 2 * k)%nat with 1%nat by lia. done.
Qed.

Lemma critic_calls_train (nu : int32) (q0 : QfState) (k0 : Key) (j : nat) :
  gs = Z.of_nat (S j) → sliceable gs data →
  critic_calls
    (log (_train actor qf ent_coef gamma tau target_entropy gs data nu q0 actor_state
            ent_coef_state k0))
  = (λ i, call_of i (after (start nu q0 k0) i)) <$> seq 0 (S j).
Proof.
  intros Hgs Hs. rewrite (train_log_ok nu q0 k0 j Hgs Hs).
  unfold critic_calls. rewrite omap_app.
  fold (critic_calls (calls (start nu q0 k0) (S j))).
  rewrite critic_calls_cycles. simpl omap. by rewrite app_nil_r.
Qed.

Lemma actor_calls_train (nu : int32) (q0 : QfState) (k0 : Key) (j : nat) :
  gs = Z.of_nat (S j) → sliceable gs data →
  actor_calls
    (log (_train actor qf ent_coef gamma tau target_entropy gs data nu q0 actor_state
            ent_coef_state k0))
  = [actor_call_on gs data actor_state ent_coef_state j
       (after (start nu q0 k0) (S j))].
Proof.
  intros Hgs Hs. rewrite (train_log_ok nu q0 k0 j Hgs Hs).
  unfold actor_calls. rewrite omap_app.
  fold (actor_calls (calls (start nu q0 k0) (S j))).
  by rewrite actor_calls_cycles.
Qed.

(** X1. For every [n_updates] a traced [int32] can hold, and update
    functions that return, the statements of [_train] itself raise only
    before the first update is called: an invocation either raises with no
    update called or returns after [2 * gradient_steps + 2] calls. It raises
    [UnboundLocalError] exactly when [gradient_steps < 1], and
    [AssertionError] exactly when [gradient_steps >= 1] and the length of
    one of the five arrays is not divisible by [gradient_steps]; the
    division by zero in [slice] is never reached. *)
Theorem train_outcome_cases (nu : int32) (q0 : QfState) (k0 : Key) :
  let t := _train actor qf ent_coef gamma tau target_entropy gs data nu q0
             actor_state ent_coef_state k0 in
  match outcome t with
  | inl e =>
      log t = [] ∧
      ((e = UnboundLocalError ∧ gs < 1) ∨
       (e = AssertionError ∧ 1 ≤ gs ∧ ¬ sliceable gs data))
  | inr _ =>
      1 ≤ gs ∧ sliceable gs data ∧ length (log t) = (2 * Z.to_nat gs + 2)%nat
  end.
Proof.
  intros t. unfold t. destruct (decide (gs < 1)) as [Hlt|Hge].
  - rewrite train_unbound by lia. simpl. auto.
  - destruct sliceable_dec as [Hs|Hns].
    + destruct (Z.to_nat gs) as [|j] eqn:Hj; [lia|].
      assert (gs = Z.of_nat (S j)) as Hgs' by lia.
      pose proof (train_ok nu q0 k0 j Hgs' Hs) as Ht. cbv zeta in Ht.
      rewrite Ht. unfold outcome, log. cbn [fst snd].
      split; [lia|]. split; [done|].
      rewrite length_app, length_cycles. simpl. lia.
    + rewrite train_assert by (done || lia). simpl.
      split; [done|]. right. split; [done|]. split; [lia|done].
Qed.

(** X2. State flow through a returning invocation. Every critic update
    receives the actor state and the entropy-coefficient state given to the
    invocation; the first receives the given critic state, and each later one
    the soft update of the critic state its predecessor returned. In the log
    every critic update is directly followed by the soft update of the state
    it returned. The actor update receives the soft update of what the last
    critic update returned, the given (not yet updated) actor state, and the
    observations the last critic update received. *)
Theorem train_state_flow (nu : int32) (q0 : QfState) (k0 : Key) :
  1 ≤ gs → sliceable gs data →
  let l := log (_train actor qf ent_coef gamma tau target_entropy gs data nu q0
                  actor_state ent_coef_state k0) in
  (∀ i c, critic_calls l !! i = Some c →
          cc_actor_state c = actor_state ∧ cc_ent_coef_state c = ent_coef_state ∧
          l !! (2 * i)%nat = Some (Update_critic c) ∧
          l !! (2 * i + 1)%nat
          = Some (Soft_update tau (run_update_critic actor qf ent_coef c).1.1)) ∧
  (∀ c, critic_calls l !! 0%nat = Some c → cc_qf_state c = q0) ∧
  (∀ i c c', critic_calls l !! i = Some c → critic_calls l !! S i = Some c' →
             cc_qf_state c'
             = SAC_soft_update tau (run_update_critic actor qf ent_coef c).1.1) ∧
  ∃ c a, last (critic_calls l) = Some c ∧ actor_calls l = [a] ∧
         ac_qf_state a
         = SAC_soft_update tau (run_update_critic actor qf ent_coef c).1.1 ∧
         ac_actor_state a = actor_state ∧
         ac_observations a = cc_observations c.
Proof.
  intros Hgs Hs l. unfold l.
  destruct (Z.to_nat gs) as [|j] eqn:Hj; [lia|].
  assert (gs = Z.of_nat (S j)) as Hgs' by lia.
  rewrite (critic_calls_train nu q0 k0 j Hgs' Hs), (actor_calls_train nu q0 k0 j Hgs' Hs).
  rewrite (train_log_ok nu q0 k0 j Hgs' Hs).
  set (s0 := start nu q0 k0).
  assert (∀ i c, ((λ i, call_of i (after s0 i)) <$> seq 0 (S j)) !! i = Some c →
                 (i < S j)%nat ∧ c = call_of i (after s0 i)) as Hlook.
  { intros i c Hc. rewrite list_lookup_fmap in Hc.
    destruct (seq 0 (S j) !! i) as [i'|] eqn:Hi; [|done].
    apply lookup_seq in Hi as [-> Hi]. simplify_eq/=. done. }
  split; [|split; [|split]].
  - intros i c Hc. apply Hlook in Hc as [Hi ->].
    destruct (lookup_cycles s0 (S j) i Hi) as [H1 H2].
    rewrite !lookup_app_l by (rewrite length_cycles; lia). done.
  - intros c Hc. by apply Hlook in Hc as [_ ->].
  - intros i c c' Hc Hc'. apply Hlook in Hc as [_ ->]. apply Hlook in Hc' as [_ ->].
    done.
  - exists (call_of j (after s0 j)). eexists. split; [|split; [done|done]].
    rewrite seq_S, fmap_app. apply last_snoc.
Qed.

(** X4. The five arrays need not have the same length. When the length of
    each is divisible by [gradient_steps], the critic update of cycle [i]
    receives from each array the rows [i*m, (i+1)*m) with [m] that array's
    own length over [gradient_steps], so the micro-batches of one cycle can
    differ in length. *)
Theorem critic_update_unequal_lengths (nu : int32) (q0 : QfState) (k0 : Key) (i : nat) :
  sliceable gs data → Z.of_nat i < gs →
  ∃ c,
    critic_calls
      (log (_train actor qf ent_coef gamma tau target_entropy gs data nu q0
              actor_state ent_coef_state k0)) !! i = Some c ∧
    cc_observations c = micro_batch gs i (observations data) ∧
    cc_actions c = micro_batch gs i (actions data) ∧
    cc_next_observations c = micro_batch gs i (next_observations data) ∧
    cc_rewards c = micro_batch gs i (rewards data) ∧
    cc_dones c = micro_batch gs i (dones data) ∧
    length (cc_observations c) = Z.to_nat (shape0 (observations data) `div` gs) ∧
    length (cc_actions c) = Z.to_nat (shape0 (actions data) `div` gs) ∧
    length (cc_next_observations c)
    = Z.to_nat (shape0 (next_observations data) `div` gs) ∧
    length (cc_rewards c) = Z.to_nat (shape0 (rewards data) `div` gs) ∧
    length (cc_dones c) = Z.to_nat (shape0 (dones data) `div` gs).
Proof.
  intros Hs Hi. destruct (Z.to_nat gs) as [|j] eqn:Hj; [lia|].
  assert (gs = Z.of_nat (S j)) as Hgs' by lia.
  exists (call_of i (after (start nu q0 k0) i)). split.
  - rewrite (critic_calls_train nu q0 k0 j Hgs' Hs).
    by rewrite list_lookup_fmap, lookup_seq_lt by lia.
  - destruct Hs as (Ho & Ha & Hn & Hr & Hd).
    unfold cycle_call. cbn [cc_observations cc_actions cc_next_observations
                              cc_rewards cc_dones].
    rewrite !length_micro_batch by done. done.
Qed.

(** X5. An empty sample is accepted: with [gradient_steps >= 1] and five
    empty arrays the invocation returns after [gradient_steps] critic
    updates, one actor update and one temperature update, and every critic
    update and the actor update receive empty arrays. *)
Theorem train_empty_sample (nu : int32) (q0 : QfState) (k0 : Key) :
  1 ≤ gs → Forall (λ x, x = []) (arrays data) →
  ∃ l r,
    _train actor qf ent_coef gamma tau target_entropy gs data nu q0 actor_state
      ent_coef_state k0 = (l, inr r) ∧
    kind_of <$> l = schedule (Z.to_nat gs) ∧
    Forall (λ c, cc_observations c = [] ∧ cc_actions c = [] ∧
                 cc_next_observations c = [] ∧ cc_rewards c = [] ∧ cc_dones c = [])
      (critic_calls l) ∧
    Forall (λ a, ac_observations a = []) (actor_calls l).
Proof.
  intros Hgs Hempty. unfold arrays in Hempty.
  apply Forall_cons in Hempty as [Ho Hempty].
  apply Forall_cons in Hempty as [Ha Hempty].
  apply Forall_cons in Hempty as [Hn Hempty].
  apply Forall_cons in Hempty as [Hr Hempty].
  apply Forall_cons in Hempty as [Hd _].
  assert (sliceable gs data) as Hs.
  { unfold sliceable. rewrite Ho, Ha, Hn, Hr, Hd. unfold shape0. simpl.
    by rewrite Z.mod_0_l by lia. }
  assert (∀ i, micro_batch gs i (@nil Row) = []) as Hmb.
  { intros i. unfold micro_batch, rows. by rewrite drop_nil, take_nil. }
  destruct (Z.to_nat gs) as [|j] eqn:Hj; [lia|].
  assert (gs = Z.of_nat (S j)) as Hgs' by lia.
  pose proof (train_ok nu q0 k0 j Hgs' Hs) as Ht. cbv zeta in Ht.
  pose proof (critic_calls_train nu q0 k0 j Hgs' Hs) as Hcc.
  pose proof (actor_calls_train nu q0 k0 j Hgs' Hs) as Hac.
  rewrite Ht in Hcc, Hac. unfold log in Hcc, Hac. cbn [fst] in Hcc, Hac.
  eexists _, _. split; [exact Ht|]. split; [|split].
  - by rewrite fmap_app, kinds_cycles.
  - rewrite Hcc. apply Forall_fmap, Forall_forall. intros i _.
    unfold cycle_call. simpl. rewrite Ho, Ha, Hn, Hr, Hd, !Hmb. done.
  - rewrite Hac. apply Forall_singleton. unfold actor_call_on. simpl.
    by rewrite Ho, Hmb.
Qed.

(** X10. In a returning invocation the micro-batches handed to the critic
    updates, joined in the order of the calls, give back each of the five
    arrays: every row is consumed by exactly one critic update, in order,
    also when the arrays differ in length. *)
Theorem critic_updates_cover_sample (nu : int32) (q0 : QfState) (k0 : Key) :
  1 ≤ gs → sliceable gs data →
  let l := log (_train actor qf ent_coef gamma tau target_entropy gs data nu q0
                  actor_state ent_coef_state k0) in
  mjoin (cc_observations <$> critic_calls l) = observations data ∧
  mjoin (cc_actions <$> critic_calls l) = actions data ∧
  mjoin (cc_next_observations <$> critic_calls l) = next_observations data ∧
  mjoin (cc_rewards <$> critic_calls l) = rewards data ∧
  mjoin (cc_dones <$> critic_calls l) = dones data.
Proof.
  intros Hgs (Ho & Ha & Hn & Hr & Hd) l. unfold l.
  destruct (Z.to_nat gs) as [|j] eqn:Hj; [lia|].
  assert (gs = Z.of_nat (S j)) as Hgs' by lia.
  rewrite (critic_calls_train nu q0 k0 j Hgs') by done.
  assert (∀ x : ndarray, shape0 x `mod` gs = 0 →
            mjoin ((λ i, micro_batch gs i x) <$> seq 0 (S j)) = x) as Hjoin.
  { intros x Hx. rewrite <-Hj. by apply micro_batches_partition. }
  rewrite <-!list_fmap_compose.
  split_and!; [apply (Hjoin _ Ho)|apply (Hjoin _ Ha)|apply (Hjoin _ Hn)
              |apply (Hjoin _ Hr)|apply (Hjoin _ Hd)].
Qed.

End Train_facts.

(** X3. With [gradient_steps = 1] no slicing assertion can fail: for every
    sample, whatever the lengths of its arrays, and every [n_updates] a
    traced [int32] can hold, an invocation (whose update functions return)
    makes one critic update on the five whole arrays with the given critic
    state and key, the soft update, the actor update on all the
    observations, and the temperature update, and returns [n_updates + 1]
    wrapped to 32 bits, which is [n_updates + 1] below [2^31 - 1]. *)
Theorem train_single_step `{Collaborators}
    (actor : Actor) (qf : Qf) (ent_coef : EntCoef)
    (train_gamma train_tau target_entropy : Float)
    (data : ReplayBufferSamplesNp) (nu : int32) (q0 : QfState) (actor_state : ActorState)
    (ent_coef_state : EntCoefState) (k0 : Key) :
  ∃ c a,
    _train actor qf ent_coef train_gamma train_tau target_entropy 1 data nu q0
      actor_state ent_coef_state k0
    = ([Update_critic c;
        Soft_update train_tau (run_update_critic actor qf ent_coef c).1.1;
        Update_actor a;
        Update_temperature target_entropy ent_coef_state
          (run_update_actor actor qf ent_coef a).2],
       inr (wrap32 (nu + 1), ac_qf_state a,
            (run_update_actor actor qf ent_coef a).1.1.1.1,
            (SAC_update_temperature ent_coef target_entropy ent_coef_state
               (run_update_actor actor qf ent_coef a).2).1,
            (run_update_actor actor qf ent_coef a).1.2,
            ((run_update_actor actor qf ent_coef a).1.1.2,
             (run_update_critic actor qf ent_coef c).1.2.1,
             (run_update_critic actor qf ent_coef c).1.2.2))) ∧
    cc_observations c = observations data ∧ cc_actions c = actions data ∧
    cc_next_observations c = next_observations data ∧
    cc_rewards c = rewards data ∧ cc_dones c = dones data ∧
    cc_qf_state c = q0 ∧ cc_key c = k0 ∧
    ac_observations a = observations data ∧
    ac_key a = (run_update_critic actor qf ent_coef c).2 ∧
    (nu < int32_max → wrap32 (nu + 1) = nu + 1).
Proof.
  assert (nu < int32_max → wrap32 (nu + 1) = nu + 1) as Hwrap.
  { intros Hlt. apply wrap32_in_range, in_int32_spec.
    pose proof (proj1 (in_int32_spec nu) (int32_ok nu)). lia. }
  assert (sliceable 1 data) as Hs by (unfold sliceable; by rewrite !Z.mod_1_r).
  pose proof (train_ok actor qf ent_coef train_gamma train_tau target_entropy 1 data
                actor_state ent_coef_state nu q0 k0 0 eq_refl Hs) as Ht.
  cbv zeta in Ht. eexists _, _. split; [exact Ht|].
  cbn [after_cycles]. unfold cycle_next, cycle_call, actor_call_on.
  cbn [cc_observations cc_actions cc_next_observations cc_rewards cc_dones
       cc_qf_state cc_key ac_observations ac_key key qf_state start].
  by rewrite !micro_batch_whole.
Qed.

(** ** The constructor *)

Section Constructor_facts.

Context `{Externals}.

Variable SAC__init__ : sac_kwargs → exn + instance.

Lemma init_unfold (a : droq_kwargs) :
  __init__ SAC__init__ a
  = match SAC__init__ (super_kwargs a) with
    | inl e => inl e
    | inr parent =>
        inr {| self_policy_kwargs :=
                 <["layer_norm"%string := VBool (layer_norm a)]>
                   (<["dropout_rate"%string := VFloat (dropout_rate a)]>
                      (self_policy_kwargs parent));
               self_attributes := self_attributes parent |}
    end.
Proof. reflexivity. Qed.

(** C10. When construction succeeds, the parent constructor has run first,
    and the instance's [policy_kwargs] is the dictionary the parent left with
    ["dropout_rate"] and ["layer_norm"] set to the constructor arguments:
    both entries are present with those values whatever the dictionary held
    under these names, every other entry is as the parent left it, and the
    arguments default to 0.01 and [True]. *)
Theorem init_sets_dropout_and_layer_norm (a : droq_kwargs) (self : instance) :
  __init__ SAC__init__ a = inr self →
  ∃ parent,
    SAC__init__ (super_kwargs a) = inr parent ∧
    self_policy_kwargs self
    = <["layer_norm"%string := VBool (layer_norm a)]>
        (<["dropout_rate"%string := VFloat (dropout_rate a)]>
           (self_policy_kwargs parent)) ∧
    self_policy_kwargs self !! "dropout_rate"%string = Some (VFloat (dropout_rate a)) ∧
    self_policy_kwargs self !! "layer_norm"%string = Some (VBool (layer_norm a)) ∧
    (∀ k : string, k ≠ "dropout_rate"%string → k ≠ "layer_norm"%string →
       self_policy_kwargs self !! k = self_policy_kwargs parent !! k) ∧
    ∀ p e, dropout_rate (default_kwargs p e) = Q2Qc (1 # 100) ∧
           layer_norm (default_kwargs p e) = true.
Proof.
  intros Hinit. rewrite init_unfold in Hinit.
  destruct (SAC__init__ (super_kwargs a)) as [e|parent]; [done|].
  injection Hinit as <-. exists parent. cbn [self_policy_kwargs].
  split; [done|]. split; [done|]. split; [|split; [|split]].
  - rewrite lookup_insert_ne by done. by rewrite lookup_insert_eq.
  - by rewrite lookup_insert_eq.
  - intros k Hd Hl. by rewrite !lookup_insert_ne.
  - done.
Qed.

Lemma init_fails_with_parent (a : droq_kwargs) (e : exn) :
  __init__ SAC__init__ a = inl e ↔ SAC__init__ (super_kwargs a) = inl e.
Proof.
  rewrite init_unfold. destruct (SAC__init__ (super_kwargs a)); split; congruence.
Qed.

(** X6. The [device] argument is accepted and ignored: it is not passed to
    the parent constructor and not stored, so two calls that differ in
    [device] only have the same outcome. *)
Theorem init_ignores_device (d : string) (a : droq_kwargs) :
  __init__ SAC__init__ (with_device d a) = __init__ SAC__init__ a.
Proof. by rewrite !init_unfold. Qed.

(** X7. [dropout_rate] and [layer_norm] are neither passed to the parent
    constructor nor checked: a call with other values for them fails with
    the same exception when the call fails, and when the call succeeds it
    succeeds too, with the same attributes and the same [policy_kwargs]
    except for the two entries, which hold the values given. *)
Theorem init_dropout_unchecked (r : Float) (ln : bool) (a : droq_kwargs) :
  (∀ e, __init__ SAC__init__ (with_dropout r ln a) = inl e
        ↔ __init__ SAC__init__ a = inl e) ∧
  (∀ self, __init__ SAC__init__ a = inr self →
     ∃ self', __init__ SAC__init__ (with_dropout r ln a) = inr self' ∧
              self_attributes self' = self_attributes self ∧
              self_policy_kwargs self' !! "dropout_rate"%string = Some (VFloat r) ∧
              self_policy_kwargs self' !! "layer_norm"%string = Some (VBool ln) ∧
              ∀ k : string, k ≠ "dropout_rate"%string → k ≠ "layer_norm"%string →
                self_policy_kwargs self' !! k = self_policy_kwargs self !! k).
Proof.
  rewrite !init_unfold.
  change (super_kwargs (with_dropout r ln a)) with (super_kwargs a).
  destruct (SAC__init__ (super_kwargs a)) as [e|parent].
  - split; [done|]. by intros self.
  - split; [split; congruence|]. intros self [= <-]. eexists. split; [done|].
    cbn [self_attributes self_policy_kwargs dropout_rate layer_norm with_dropout].
    split; [done|]. split; [|split].
    + rewrite lookup_insert_ne by done. by rewrite lookup_insert_eq.
    + by rewrite lookup_insert_eq.
    + intros k Hd Hl. by rewrite !lookup_insert_ne.
Qed.

End Constructor_facts.

(** C8. [update_actor] hands back the critic state it was given, for every
    input, and the actor state it returns is the given one after one
    [apply_gradients] with the gradient of the loss. The entropy-coefficient
    state is not among the values it returns: in [_train] (with
    [gradient_steps >= 1] and a sliceable sample) the temperature update that
    follows receives the state given to the invocation, the one the actor
    update received, and the critic state the invocation returns is the one
    the actor update received. *)
Theorem update_actor_keeps_critic_state `{Collaborators}
    (actor : Actor) (qf : Qf) (ent_coef : EntCoef) (actor_state : ActorState)
    (qf_state : QfState) (ent_coef_state : EntCoefState) (observations : ndarray)
    (key : Key) (train_gamma train_tau target_entropy : Float) (gs : Z)
    (data : ReplayBufferSamplesNp) (nu : int32) :
  (let r := update_actor actor qf ent_coef actor_state qf_state ent_coef_state
              observations key in
   r.1.1.1.2 = qf_state ∧
   r.1.1.1.1
   = apply_gradients actor_state
       (jax_grad
          (actor_loss actor qf ent_coef qf_state ent_coef_state observations
             (jax_random_split key 3 1) (jax_random_split key 3 2))
          (actor_params actor_state))) ∧
  (1 ≤ gs → sliceable gs data →
   ∃ l0 a nu' a' k' diag,
     _train actor qf ent_coef train_gamma train_tau target_entropy gs data nu
       qf_state actor_state ent_coef_state key
     = (l0 ++ [Update_actor a;
               Update_temperature target_entropy ent_coef_state
                 (run_update_actor actor qf ent_coef a).2],
        inr (nu', ac_qf_state a, a',
             (SAC_update_temperature ent_coef target_entropy ent_coef_state
                (run_update_actor actor qf ent_coef a).2).1,
             k', diag)) ∧
     ac_ent_coef_state a = ent_coef_state ∧
     ac_actor_state a = actor_state ∧
     a' = (run_update_actor actor qf ent_coef a).1.1.1.1).
Proof.
  split.
  - by rewrite update_actor_unfold.
  - apply train_after_loop.
Qed.

(** C6, as the code has it. An invocation of [_train] with
    [gradient_steps < 1] raises [UnboundLocalError] before any update is
    called. [tau] and [gamma] are not range-checked: with
    [gradient_steps >= 1] and a sliceable sample [_train] returns for every
    [tau] and [gamma], handing [gamma] to every critic update and [tau] to
    every soft update; the constructor passes [tau], [gamma] and
    [gradient_steps] on to the parent constructor as given and fails exactly
    when the parent constructor fails. *)
Theorem hyperparameters_as_checked `{Collaborators} `{Externals}
    (actor : Actor) (qf : Qf) (ent_coef : EntCoef)
    (train_gamma train_tau target_entropy : Float) (gs : Z)
    (data : ReplayBufferSamplesNp) (nu : int32) (q0 : QfState) (actor_state : ActorState)
    (ent_coef_state : EntCoefState) (k0 : Key)
    (SAC__init__ : sac_kwargs → exn + instance) (a : droq_kwargs) :
  (gs < 1 →
     _train actor qf ent_coef train_gamma train_tau target_entropy gs data nu q0
       actor_state ent_coef_state k0 = ([], inl UnboundLocalError)) ∧
  (1 ≤ gs → sliceable gs data →
     ∃ l r, _train actor qf ent_coef train_gamma train_tau target_entropy gs data nu
              q0 actor_state ent_coef_state k0 = (l, inr r) ∧
            Forall (λ c, cc_gamma c = train_gamma) (critic_calls l) ∧
            soft_update_rates l = replicate (Z.to_nat gs) train_tau) ∧
  sac_tau (super_kwargs a) = tau a ∧
  sac_gamma (super_kwargs a) = gamma a ∧
  sac_gradient_steps (super_kwargs a) = gradient_steps a ∧
  (∀ e, __init__ SAC__init__ a = inl e ↔ SAC__init__ (super_kwargs a) = inl e).
Proof.
  split; [|split].
  - intros Hgs. apply train_unbound. lia.
  - apply train_forwards_rates.
  - repeat split; try done; by apply init_fails_with_parent.
Qed.

(** ** The theorems on the stub collaborators *)

Lemma train_update_schedule_witness :
  1 ≤ 2 ∧ batch_of_size Stub.data4 4 ∧ Z.of_nat 4 `mod` 2 = 0 ∧
  ∃ l q' a' e' k' diag,
    Stub.train Stub.gamma_ok Stub.tau_ok 2 Stub.data4
    = (l, inr (wrap32 (0 + 2), q', a', e', k', diag)) ∧
    kind_of <$> l = schedule 2 ∧ count_kind Actor_update l = 1%nat.
Proof.
  assert (1 ≤ 2) as Hgs by lia.
  assert (batch_of_size Stub.data4 4) as Hbs by (by repeat split).
  assert (Z.of_nat 4 `mod` 2 = 0) as Hmod by reflexivity.
  split; [exact Hgs|]. split; [exact Hbs|]. split; [exact Hmod|].
  destruct (proj1 (train_update_schedule (H := Stub.collaborators) tt tt tt
                     Stub.gamma_ok Stub.tau_ok (-1)%Qc 2 Stub.data4 0%nat 0%nat
                     Stub.zero32 0%nat [] 4%nat Hgs Hbs Hmod))
    as (l & q' & a' & e' & k' & diag & Ht & Hk & _ & _ & Ha & _).
  exists l, q', a', e', k', diag. auto.
Defined.

(** The claim C1 fails for the counter: from [n_updates = 2^31 - 1], the
    largest value a traced [int32] holds, one gradient step on the stubs
    returns [n_updates = -2^31], not [2^31]. *)
Lemma n_updates_wraps_at_int32_max :
  ∃ l q' a' e' k' diag,
    @_train Stub.collaborators tt tt tt Stub.gamma_ok Stub.tau_ok (-1)%Qc 1
      Stub.data3 2147483647 0%nat 0%nat 0%nat []
    = (l, inr (-2147483648, q', a', e', k', diag)) ∧
    -2147483648 ≠ 2147483647 + 1.
Proof. eexists _, _, _, _, _, _. split; [by vm_compute|done]. Qed.

Lemma update_actor_loss_mean_over_critics_witness :
  sampled_log_prob (H := Stub.collaborators) tt 0%nat [12; 13] [] ≠ [] ∧
  ensemble_values (H := Stub.collaborators) tt tt 0%nat 0%nat [12; 13] [] ≠ [] ∧
  Forall (λ member,
            length member
            = length (sampled_log_prob (H := Stub.collaborators) tt 0%nat [12; 13] []))
    (ensemble_values (H := Stub.collaborators) tt tt 0%nat 0%nat [12; 13] []) ∧
  (update_actor (H := Stub.collaborators) tt tt tt 0%nat 0%nat 0%nat [12; 13] []).1.1.2
  = spec_actor_loss (Q2Qc (1 # 2)) [Qc_of_Z 12; Qc_of_Z 13]
      [[Qc_of_Z 12; Qc_of_Z 13]; [Qc_of_Z 36; Qc_of_Z 39]] ∧
  (update_actor (H := Stub.collaborators) tt tt tt 0%nat 0%nat 0%nat [12; 13] []).2
  = spec_entropy [Qc_of_Z 12; Qc_of_Z 13].
Proof.
  assert (sampled_log_prob (H := Stub.collaborators) tt 0%nat [12; 13] [] ≠ [])
    as Hrows by done.
  assert (ensemble_values (H := Stub.collaborators) tt tt 0%nat 0%nat [12; 13] [] ≠ [])
    as Hne by done.
  assert (Forall (λ member,
                    length member
                    = length (sampled_log_prob (H := Stub.collaborators) tt 0%nat
                                [12; 13] []))
            (ensemble_values (H := Stub.collaborators) tt tt 0%nat 0%nat [12; 13] []))
    as Hlen by (repeat constructor).
  split; [exact Hrows|]. split; [exact Hne|]. split; [exact Hlen|].
  exact (update_actor_loss_mean_over_critics (H := Stub.collaborators) tt tt tt
           0%nat 0%nat 0%nat [12; 13] [] Hrows Hne Hlen).
Defined.

Lemma actor_update_last_micro_batch_witness :
  1 ≤ 2 ∧
  ∀ a, a ∈ actor_calls (log (Stub.train Stub.gamma_ok Stub.tau_ok 2 Stub.data4)) →
       ac_observations a = [12; 13].
Proof.
  assert (1 ≤ 2) as Hgs by lia. split; [exact Hgs|].
  exact (proj1 (actor_update_last_micro_batch (H := Stub.collaborators) tt tt tt
                  Stub.gamma_ok Stub.tau_ok (-1)%Qc 2 Stub.data4 0%nat 0%nat Stub.zero32 0%nat []
                  Hgs)).
Defined.

Lemma critic_update_micro_batches_witness :
  batch_of_size Stub.data4 4 ∧ Z.of_nat 4 `mod` 2 = 0 ∧ Z.of_nat 1 < 2 ∧
  ∃ c, critic_calls (log (Stub.train Stub.gamma_ok Stub.tau_ok 2 Stub.data4)) !! 1%nat
       = Some c ∧
       cc_observations c = [12; 13] ∧ cc_actions c = [22; 23] ∧
       cc_next_observations c = [32; 33] ∧ cc_rewards c = [42; 43] ∧
       cc_dones c = [0; 1].
Proof.
  assert (batch_of_size Stub.data4 4) as Hbs by (by repeat split).
  assert (Z.of_nat 4 `mod` 2 = 0) as Hmod by reflexivity.
  assert (Z.of_nat 1 < 2) as Hi by lia.
  split; [exact Hbs|]. split; [exact Hmod|]. split; [exact Hi|].
  exact (proj1 (critic_update_micro_batches (H := Stub.collaborators) tt tt tt
                  Stub.gamma_ok Stub.tau_ok (-1)%Qc 2 Stub.data4 0%nat 0%nat Stub.zero32 0%nat []
                  4%nat 1%nat Hbs Hmod Hi)).
Defined.

Lemma train_asserts_divisibility_witness :
  1 ≤ 2 ∧ batch_of_size Stub.data3 3 ∧
  Stub.train Stub.gamma_ok Stub.tau_ok 2 Stub.data3 = ([], inl AssertionError).
Proof.
  assert (1 ≤ 2) as Hgs by lia.
  assert (batch_of_size Stub.data3 3) as Hbs by (by repeat split).
  split; [exact Hgs|]. split; [exact Hbs|].
  apply (proj1 (train_asserts_divisibility (H := Stub.collaborators) tt tt tt
                  Stub.gamma_ok Stub.tau_ok (-1)%Qc 2 Stub.data3 0%nat 0%nat Stub.zero32 0%nat []
                  3%nat Hgs Hbs)).
  by vm_compute.
Defined.

Lemma hyperparameters_as_checked_witness :
  0 < 1 ∧
  Stub.train Stub.gamma_ok Stub.tau_ok 0 Stub.data4 = ([], inl UnboundLocalError).
Proof.
  assert (0 < 1) as Hgs by lia. split; [exact Hgs|].
  exact (proj1 (hyperparameters_as_checked (H := Stub.collaborators)
                  (H0 := Stub.externals) tt tt tt Stub.gamma_ok Stub.tau_ok (-1)%Qc 0
                  Stub.data4 Stub.zero32 0%nat 0%nat 0%nat [] Stub.parent_init
                  (Stub.kwargs_with ∅)) Hgs).
Defined.




Lemma update_actor_keeps_critic_state_witness :
  1 ≤ 2 ∧ sliceable 2 Stub.data4 ∧
  (update_actor (H := Stub.collaborators) tt tt tt 0%nat 7%nat 0%nat [12; 13] []).1.1.1.2
  = 7%nat ∧
  ∃ (l0 : list (@update Stub.collaborators)) (a : @actor_call Stub.collaborators)
    entropy nu' a' e' k' diag,
    Stub.train Stub.gamma_ok Stub.tau_ok 2 Stub.data4
    = (l0 ++ [Update_actor a;
              @Update_temperature Stub.collaborators (-1)%Qc 0%nat entropy],
       inr (nu', ac_qf_state a, a', e', k', diag)).
Proof.
  assert (1 ≤ 2) as Hgs by lia.
  assert (sliceable 2 Stub.data4) as Hs by (by repeat split).
  split; [exact Hgs|]. split; [exact Hs|].
  split.
  - exact (proj1 (proj1 (update_actor_keeps_critic_state (H := Stub.collaborators)
                           tt tt tt 0%nat 7%nat 0%nat [12; 13] [] Stub.gamma_ok
                           Stub.tau_ok (-1)%Qc 2 Stub.data4 Stub.zero32))).
  - destruct (proj2 (update_actor_keeps_critic_state (H := Stub.collaborators)
                       tt tt tt 0%nat 0%nat 0%nat [12; 13] [] Stub.gamma_ok Stub.tau_ok
                       (-1)%Qc 2 Stub.data4 Stub.zero32) Hgs Hs)
      as (l0 & a & nu' & a' & k' & diag & Ht & _).
    eexists l0, a, _, nu', a', _, k', diag. exact Ht.
Defined.

Lemma train_diagnostics_last_cycle_witness :
  1 ≤ 2 ∧ sliceable 2 Stub.data4 ∧
  ∃ l c r actor_loss_value,
    Stub.train Stub.gamma_ok Stub.tau_ok 2 Stub.data4
    = (l, inr (r, (actor_loss_value,
                   (run_update_critic (H := Stub.collaborators) tt tt tt c).1.2.1,
                   (run_update_critic (H := Stub.collaborators) tt tt tt c).1.2.2))) ∧
    last (critic_calls l) = Some c ∧
    cc_observations c = [12; 13] ∧ cc_ent_coef_state c = 0%nat.
Proof.
  assert (1 ≤ 2) as Hgs by lia.
  assert (sliceable 2 Stub.data4) as Hs by (by repeat split).
  split; [exact Hgs|]. split; [exact Hs|].
  destruct (train_diagnostics_last_cycle (H := Stub.collaborators) tt tt tt
              Stub.gamma_ok Stub.tau_ok (-1)%Qc 2 Stub.data4 0%nat 0%nat Stub.zero32 0%nat []
              Hgs Hs)
    as (l0 & c & a & entropy & nu' & q' & a' & k' & loss & Ht & Hlast & _ & He & Ho & _).
  eexists _, c, _, loss. split; [exact Ht|].
  split; [exact Hlast|]. split; [exact Ho|exact He].
Defined.

Lemma init_sets_dropout_and_layer_norm_witness :
  let self :=
    @Build_instance Stub.externals
      (<["layer_norm"%string := VBool true]>
         (<["dropout_rate"%string := VFloat (Q2Qc (1 # 100))]> Stub.caller_kwargs)) tt in
  __init__ Stub.parent_init (Stub.kwargs_with Stub.caller_kwargs) = inr self ∧
  Stub.caller_kwargs !! "dropout_rate"%string = Some (VFloat (Q2Qc (1 # 2))) ∧
  self_policy_kwargs self !! "dropout_rate"%string = Some (VFloat (Q2Qc (1 # 100))) ∧
  self_policy_kwargs self !! "layer_norm"%string = Some (VBool true).
Proof.
  intros self.
  assert (__init__ Stub.parent_init (Stub.kwargs_with Stub.caller_kwargs) = inr self)
    as Hinit by reflexivity.
  split; [exact Hinit|]. split; [reflexivity|].
  destruct (init_sets_dropout_and_layer_norm (H := Stub.externals) Stub.parent_init
              (Stub.kwargs_with Stub.caller_kwargs) self Hinit)
    as (parent & _ & _ & Hd & Hl & _).
  split; [exact Hd|exact Hl].
Defined.

(** The claim C6 fails for [tau] and [gamma]: with [tau = 2], outside (0, 1],
    and [gamma = 5], outside (0, 1), an invocation of [_train] on the stubs
    with one gradient step returns a value, after a critic update that
    received this [gamma] and a soft update that received this [tau]. *)
Lemma invalid_tau_gamma_not_detected :
  ¬ (Stub.tau_bad ≤ 1)%Qc ∧ ¬ (Stub.gamma_bad < 1)%Qc ∧
  ∃ l r, Stub.train Stub.gamma_bad Stub.tau_bad 1 Stub.data3 = (l, inr r) ∧
         cc_gamma <$> critic_calls l = [Stub.gamma_bad] ∧
         soft_update_rates l = [Stub.tau_bad].
Proof.
  split; [|split].
  - intros Hle. by vm_compute in Hle.
  - intros Hlt. by vm_compute in Hlt.
  - eexists _, _. split; [by vm_compute|]. by split.
Qed.

(** The stub ensemble tells the reductions apart: on the rows [12; 13] its
    members give [12; 13] and [36; 39], and the loss of [update_actor] is the
    one of the mean over the members, not the one of their minimum. *)
Example update_actor_loss_on_stub :
  (update_actor (H := Stub.collaborators) tt tt tt 0%nat 0%nat 0%nat [12; 13] []).1.1.2
  = Q2Qc (-75 # 4) ∧
  mean (sub (scale (Q2Qc (1 # 2)) [Qc_of_Z 12; Qc_of_Z 13])
          (min_axis0 [[Qc_of_Z 12; Qc_of_Z 13]; [Qc_of_Z 36; Qc_of_Z 39]]))
  = Q2Qc (-25 # 4).
Proof. split; apply Qc_is_canon; by vm_compute. Qed.

(** ** The further properties on the stub collaborators *)

Lemma train_state_flow_witness :
  1 ≤ 2 ∧ sliceable 2 Stub.data4 ∧
  ∃ c a,
    last (critic_calls (log (Stub.train Stub.gamma_ok Stub.tau_ok 2 Stub.data4)))
    = Some c ∧
    actor_calls (log (Stub.train Stub.gamma_ok Stub.tau_ok 2 Stub.data4)) = [a] ∧
    ac_observations a = cc_observations c.
Proof.
  assert (1 ≤ 2) as Hgs by lia.
  assert (sliceable 2 Stub.data4) as Hs by (by repeat split).
  split; [exact Hgs|]. split; [exact Hs|].
  destruct (train_state_flow (H := Stub.collaborators) tt tt tt Stub.gamma_ok
              Stub.tau_ok (-1)%Qc 2 Stub.data4 0%nat 0%nat Stub.zero32 0%nat [] Hgs Hs)
    as (_ & _ & _ & c & a & Hc & Ha & _ & _ & Ho).
  exists c, a. split; [exact Hc|]. split; [exact Ha|exact Ho].
Defined.

Lemma critic_update_unequal_lengths_witness :
  sliceable 2 Stub.data_unequal ∧ Z.of_nat 1 < 2 ∧
  ∃ c,
    critic_calls (log (Stub.train Stub.gamma_ok Stub.tau_ok 2 Stub.data_unequal))
      !! 1%nat = Some c ∧
    length (cc_observations c) = 2%nat ∧ length (cc_actions c) = 1%nat ∧
    length (cc_next_observations c) = 3%nat.
Proof.
  assert (sliceable 2 Stub.data_unequal) as Hs by (by repeat split).
  assert (Z.of_nat 1 < 2) as Hi by lia.
  split; [exact Hs|]. split; [exact Hi|].
  destruct (critic_update_unequal_lengths (H := Stub.collaborators) tt tt tt
              Stub.gamma_ok Stub.tau_ok (-1)%Qc 2 Stub.data_unequal 0%nat 0%nat Stub.zero32
              0%nat [] 1%nat Hs Hi)
    as (c & Hc & _ & _ & _ & _ & _ & Ho & Ha & Hn & _).
  exists c. split; [exact Hc|]. split; [exact Ho|]. split; [exact Ha|exact Hn].
Defined.

Lemma train_empty_sample_witness :
  1 ≤ 3 ∧ Forall (λ x, x = []) (arrays Stub.data_empty) ∧
  ∃ l r, Stub.train Stub.gamma_ok Stub.tau_ok 3 Stub.data_empty = (l, inr r) ∧
         kind_of <$> l = schedule 3.
Proof.
  assert (1 ≤ 3) as Hgs by lia.
  assert (Forall (λ x, x = []) (arrays Stub.data_empty)) as He
    by (repeat constructor).
  split; [exact Hgs|]. split; [exact He|].
  destruct (train_empty_sample (H := Stub.collaborators) tt tt tt Stub.gamma_ok
              Stub.tau_ok (-1)%Qc 3 Stub.data_empty 0%nat 0%nat Stub.zero32 0%nat [] Hgs He)
    as (l & r & Ht & Hk & _).
  exists l, r. split; [exact Ht|exact Hk].
Defined.


Lemma slice_past_the_end_witness :
  1 ≤ 2 ∧ shape0 [10; 11; 12; 13] `mod` 2 = 0 ∧ 2 ≤ 5 ∧
  slice (E := unit) 2 5 [10; 11; 12; 13] = mret [].
Proof.
  assert (1 ≤ 2) as Hgs by lia.
  assert (shape0 [10; 11; 12; 13] `mod` 2 = 0) as Hmod by reflexivity.
  assert (2 ≤ 5) as Hstep by lia.
  split; [exact Hgs|]. split; [exact Hmod|]. split; [exact Hstep|].
  exact (slice_past_the_end (E := unit) 2 5 [10; 11; 12; 13] Hgs Hmod Hstep).
Defined.

Lemma init_dropout_unchecked_witness :
  let self :=
    @Build_instance Stub.externals
      (<["layer_norm"%string := VBool true]>
         (<["dropout_rate"%string := VFloat (Q2Qc (1 # 100))]> Stub.caller_kwargs)) tt in
  __init__ Stub.parent_init (Stub.kwargs_with Stub.caller_kwargs) = inr self ∧
  ∃ self',
    __init__ Stub.parent_init
      (with_dropout (Qc_of_Z 5) false (Stub.kwargs_with Stub.caller_kwargs))
    = inr self' ∧
    self_policy_kwargs self' !! "dropout_rate"%string = Some (VFloat (Qc_of_Z 5)).
Proof.
  intros self.
  assert (__init__ Stub.parent_init (Stub.kwargs_with Stub.caller_kwargs) = inr self)
    as Hinit by reflexivity.
  split; [exact Hinit|].
  destruct (proj2 (init_dropout_unchecked (H := Stub.externals) Stub.parent_init
                     (Qc_of_Z 5) false (Stub.kwargs_with Stub.caller_kwargs))
              self Hinit)
    as (self' & Hinit' & _ & Hd & _).
  exists self'. split; [exact Hinit'|exact Hd].
Defined.

Lemma critic_updates_cover_sample_witness :
  1 ≤ 2 ∧ sliceable 2 Stub.data_unequal ∧
  mjoin (cc_next_observations
           <$> critic_calls
                 (log (Stub.train Stub.gamma_ok Stub.tau_ok 2 Stub.data_unequal)))
  = [30; 31; 32; 33; 34; 35].
Proof.
  assert (1 ≤ 2) as Hgs by lia.
  assert (sliceable 2 Stub.data_unequal) as Hs by (by repeat split).
  split; [exact Hgs|]. split; [exact Hs|].
  exact (proj1 (proj2 (proj2 (critic_updates_cover_sample (H := Stub.collaborators)
                                tt tt tt Stub.gamma_ok Stub.tau_ok (-1)%Qc 2
                                Stub.data_unequal 0%nat 0%nat Stub.zero32 0%nat [] Hgs Hs)))).
Defined.
